(** * DbConnection.cpp: the connection handle of the PostgreSQL binding

    A shallow embedding of [src/DbConnection.cpp].  The class wraps one
    libpq connection ([PGconn*]) and a weak pointer to the result that is
    currently being served.  Almost every line of it is a call into libpq
    or into the R runtime, so the model keeps those calls abstract: the
    outside world answers each call (class [Extern]) and every call is
    written, with its arguments and its answer, to a trace.  The
    properties below are statements about that trace, the raised error
    and the fields of the object. *)

From Stdlib Require Import List String ZArith Bool Arith Lia.
Import ListNotations.
Local Open Scope Z_scope.

(** ** Data as the code has it *)

(** Pointers: [None] is the null pointer, [Some a] points to object [a]. *)
Definition PGconn_p := option nat.      (* PGconn*          *)
Definition PGresult_p := option nat.    (* PGresult*        *)
Definition PGcancel_p := option nat.    (* PGcancel*        *)
Definition DbResult_p := option nat.    (* const DbResult*  *)
Definition char_p := option string.     (* const char*, by content *)
Definition SEXP := nat.                 (* an R object            *)

(** [Rcpp::String]: either R's [NA_STRING] or characters. *)
Inductive String := NA_STRING | Chars (s : string).

(** [String::get_cstring()]: the characters; those of [NA_STRING] are "NA". *)
Definition get_cstring (x : String) : string :=
  match x with
  | NA_STRING => "NA"
  | Chars s => s
  end.

(** [x == NA_STRING] *)
Definition is_NA_STRING (x : String) : bool :=
  match x with
  | NA_STRING => true
  | Chars _ => false
  end.

Inductive cetype_t := CE_NATIVE | CE_UTF8 | CE_LATIN1 | CE_BYTES.

(** libpq-fe.h *)
Inductive ConnStatusType :=
| CONNECTION_OK | CONNECTION_BAD | CONNECTION_STARTED | CONNECTION_MADE
| CONNECTION_AWAITING_RESPONSE | CONNECTION_AUTH_OK | CONNECTION_SETENV
| CONNECTION_SSL_STARTUP | CONNECTION_NEEDED.

Inductive ExecStatusType :=
| PGRES_EMPTY_QUERY | PGRES_COMMAND_OK | PGRES_TUPLES_OK | PGRES_COPY_OUT
| PGRES_COPY_IN | PGRES_BAD_RESPONSE | PGRES_NONFATAL_ERROR
| PGRES_FATAL_ERROR | PGRES_COPY_BOTH | PGRES_SINGLE_TUPLE.

Definition ConnStatusType_eqb (a b : ConnStatusType) : bool :=
  match a, b with
  | CONNECTION_OK, CONNECTION_OK | CONNECTION_BAD, CONNECTION_BAD
  | CONNECTION_STARTED, CONNECTION_STARTED | CONNECTION_MADE, CONNECTION_MADE
  | CONNECTION_AWAITING_RESPONSE, CONNECTION_AWAITING_RESPONSE
  | CONNECTION_AUTH_OK, CONNECTION_AUTH_OK | CONNECTION_SETENV, CONNECTION_SETENV
  | CONNECTION_SSL_STARTUP, CONNECTION_SSL_STARTUP
  | CONNECTION_NEEDED, CONNECTION_NEEDED => true
  | _, _ => false
  end.

Definition ExecStatusType_eqb (a b : ExecStatusType) : bool :=
  match a, b with
  | PGRES_EMPTY_QUERY, PGRES_EMPTY_QUERY | PGRES_COMMAND_OK, PGRES_COMMAND_OK
  | PGRES_TUPLES_OK, PGRES_TUPLES_OK | PGRES_COPY_OUT, PGRES_COPY_OUT
  | PGRES_COPY_IN, PGRES_COPY_IN | PGRES_BAD_RESPONSE, PGRES_BAD_RESPONSE
  | PGRES_NONFATAL_ERROR, PGRES_NONFATAL_ERROR
  | PGRES_FATAL_ERROR, PGRES_FATAL_ERROR | PGRES_COPY_BOTH, PGRES_COPY_BOTH
  | PGRES_SINGLE_TUPLE, PGRES_SINGLE_TUPLE => true
  | _, _ => false
  end.

(** Pointer comparison [p == q]. *)
Definition ptr_eqb (p q : option nat) : bool :=
  match p, q with
  | None, None => true
  | Some a, Some b => Nat.eqb a b
  | _, _ => false
  end.

(** [static_cast<size_t>(x)] and [static_cast<int>(x)] on a 64-bit target. *)
Definition static_cast_size_t (x : Z) : Z := x mod 2 ^ 64.
Definition static_cast_int (x : Z) : Z := (x + 2 ^ 31) mod 2 ^ 32 - 2 ^ 31.
Arguments static_cast_size_t : simpl never.
Arguments static_cast_int : simpl never.

(** An R list of columns ([Rcpp::List]); a column is a vector of cells.
    [df.size()] is the number of columns, [Rf_length(df[0])] the length of
    the first one. *)
Section Table.
Context {Cell : Type}.
Definition Column := list Cell.
Definition List := list Column.
Definition size (df : List) : Z := Z.of_nat (List.length df).
Definition Rf_length (col : Column) : Z := Z.of_nat (List.length col).
End Table.
Arguments Column : clear implicits.
Arguments List : clear implicits.

(** ** Calls that leave this file

  One constructor per function of libpq and of the R runtime that the
  class calls, indexed by the type of its answer.  [warning] of Rcpp is
  [Rf_warning]; [DbResult_complete r] is [r->complete()], a method of
  the result class (DbResult.h). *)
Inductive Call : Type -> Type :=
| PQconnectdbParams (keywords values : list char_p) (expand_dbname : bool)
: Call PGconn_p
| PQstatus (conn : PGconn_p) : Call ConnStatusType
| PQerrorMessage (conn : PGconn_p) : Call string
| PQfinish (conn : PGconn_p) : Call unit
| PQsetClientEncoding (conn : PGconn_p) (encoding : string) : Call Z
| PQreset (conn : PGconn_p) : Call unit
| PQgetCancel (conn : PGconn_p) : Call PGcancel_p
| PQcancel (cancel : PGcancel_p) (errbufsize : Z) : Call (Z * string)
| PQfreeCancel (cancel : PGcancel_p) : Call unit
| PQgetResult (conn : PGconn_p) : Call PGresult_p
| PQclear (res : PGresult_p) : Call unit
| PQexec (conn : PGconn_p) (query : string) : Call PGresult_p
| PQresultStatus (res : PGresult_p) : Call ExecStatusType
| PQputCopyData (conn : PGconn_p) (buffer : string) (nbytes : Z) : Call Z
| PQputCopyEnd (conn : PGconn_p) (errormsg : char_p) : Call Z
| PQescapeLiteral (conn : PGconn_p) (str : string) (len : Z) : Call char_p
| PQescapeIdentifier (conn : PGconn_p) (str : string) (len : Z) : Call char_p
| PQfreemem (ptr : char_p) : Call unit
| Rf_mkCharCE (s : char_p) (enc : cetype_t) : Call SEXP
| Rf_warning (msg : string) : Call unit
| DbResult_complete (r : nat) : Call bool.

(** A call together with the answer it got. *)
Inductive Event := Ev : forall R : Type, Call R -> R -> Event.
Arguments Ev {R} c r.

(** Readers of a trace. *)
Definition warning_of (e : Event) : option string :=
match e with
| Ev (Rf_warning msg) _ => Some msg
| _ => None
end.

Fixpoint warnings (t : list Event) : list string :=
match t with
| [] => []
| e :: t' =>
    match warning_of e with
    | Some m => m :: warnings t'
    | None => warnings t'
    end
end.

Definition is_PQreset (e : Event) : bool :=
match e with Ev (PQreset _) _ => true | _ => false end.
Definition is_PQputCopyData (e : Event) : bool :=
match e with Ev (PQputCopyData _ _ _) _ => true | _ => false end.
Definition is_PQescapeLiteral (e : Event) : bool :=
match e with Ev (PQescapeLiteral _ _ _) _ => true | _ => false end.
Definition is_PQescapeIdentifier (e : Event) : bool :=
match e with Ev (PQescapeIdentifier _ _ _) _ => true | _ => false end.
Definition is_Rf_mkCharCE (e : Event) : bool :=
match e with Ev (Rf_mkCharCE _ _) _ => true | _ => false end.

Definition count (p : Event -> bool) (t : list Event) : nat :=
List.length (filter p t).

(** The world outside answers every call and moves on. *)
Class Extern (W : Type) := extern : forall R, Call R -> W -> R * W.
Arguments extern {W _ R} c w.

(** ** The object, the program state and the monad of its methods *)

Record DbConnection := mkDbConnection {
pConn_ : PGconn_p;
pCurrentResult_ : DbResult_p;
transacting_ : bool;
check_interrupts_ : bool
}.

(** Errors: [stop] of Rcpp throws an exception that carries a message. *)
Inductive exception := Rcpp_exception (what : string).

(** A method returns, throws, or (in the model only) has not finished its
  loop within the given number of rounds. *)
Inductive Outcome (A : Type) :=
| Ok (a : A)
| Throw (e : exception)
| OutOfFuel.
Arguments Ok {A} a.
Arguments Throw {A} e.
Arguments OutOfFuel {A}.

Section Methods.
Context {W : Type} {X : Extern W}.

Record State := mkState {
  this : DbConnection;       (* the fields of the object *)
  null : option SEXP;        (* [static RObject null] of get_null_string,
                                [None] until first use *)
  world : W;                 (* libpq, the backend, the R runtime *)
  trace : list Event         (* the calls made so far, oldest first *)
}.

Definition M (A : Type) := State -> Outcome A * State.

Definition ret {A} (a : A) : M A := fun st => (Ok a, st).

Definition bind {A B} (m : M A) (f : A -> M B) : M B :=
  fun st =>
    match m st with
    | (Ok a, st') => f a st'
    | (Throw e, st') => (Throw e, st')
    | (OutOfFuel, st') => (OutOfFuel, st')
    end.

Definition stop {A} (msg : string) : M A :=
  fun st => (Throw (Rcpp_exception msg), st).

Definition out_of_fuel {A} : M A := fun st => (OutOfFuel, st).

(** [try { body } catch (...) {}] *)
Definition try_catch_all (body : M unit) : M unit :=
  fun st =>
    match body st with
    | (Throw _, st') => (Ok tt, st')
    | other => other
    end.

(** Make a call: the world answers, the trace grows by one event. *)
Definition call {R} (c : Call R) : M R :=
  fun st =>
    let (r, w') := extern c (world st) in
    (Ok r, mkState (this st) (null st) w' (trace st ++ [Ev c r])).

Definition get_this : M DbConnection := fun st => (Ok (this st), st).
Definition put_this (o : DbConnection) : M unit :=
  fun st => (Ok tt, mkState o (null st) (world st) (trace st)).
Definition get_null : M (option SEXP) := fun st => (Ok (null st), st).
Definition put_null (v : option SEXP) : M unit :=
  fun st => (Ok tt, mkState (this st) v (world st) (trace st)).

End Methods.
Arguments State W : clear implicits.
Arguments M W A : clear implicits.

Declare Scope method_scope.
Delimit Scope method_scope with method.
Notation "x <- c1 ;; c2" := (bind c1 (fun x => c2))
(at level 61, c1 at next level, right associativity) : method_scope.
Notation "c1 ;; c2" := (bind c1 (fun _ => c2))
(at level 61, right associativity) : method_scope.
Local Open Scope method_scope.

(** ** The methods of [DbConnection]

  The logging macros ([LOG_VERBOSE], [LOG_DEBUG]) have no part in the
  behaviour and are left out, and so is [info()], which reads the
  descriptive fields of the session after the connection check. *)

Section DbConnection.
Context {W : Type} {X : Extern W}.
Context {Cell : Type}.

(** encode.h: appends the wire bytes of row [i] of [df] to the buffer. *)
Variable encode_row_in_buffer : List Cell -> Z -> string -> string.

Definition NULL {A} : option A := None.

Definition warning (msg : string) : M W unit := call (Rf_warning msg).

Definition assign_pConn_ (p : PGconn_p) : M W unit :=
  o <- get_this ;;
  put_this (mkDbConnection p (pCurrentResult_ o) (transacting_ o)
                           (check_interrupts_ o)).

Definition assign_pCurrentResult_ (r : DbResult_p) : M W unit :=
  o <- get_this ;;
  put_this (mkDbConnection (pConn_ o) r (transacting_ o)
                           (check_interrupts_ o)).

Definition assign_transacting_ (b : bool) : M W unit :=
  o <- get_this ;;
  put_this (mkDbConnection (pConn_ o) (pCurrentResult_ o) b
                           (check_interrupts_ o)).

(** The constructor, run on the storage of the new object: the member
    initialisers set three fields, the body assigns [pConn_].  Reading
    [values[i]] past the end of [values] is undefined in C++; the model
    reads a null pointer there. *)
Definition DbConnection_new (keys values : list string)
           (check_interrupts : bool) : M W unit :=
  o <- get_this ;;
  put_this (mkDbConnection (pConn_ o) NULL false check_interrupts) ;;
  let n := List.length keys in
  let c_keys :=
    map (fun i => nth i (map Some keys) NULL) (seq 0 n) ++ [NULL] in
  let c_values :=
    map (fun i => nth i (map Some values) NULL) (seq 0 n) ++ [NULL] in
  p <- call (PQconnectdbParams c_keys c_values false) ;;
  assign_pConn_ p ;;
  status <- call (PQstatus p) ;;
  (if negb (ConnStatusType_eqb status CONNECTION_OK)
   then err <- call (PQerrorMessage p) ;;
        call (PQfinish p) ;;
        stop err
   else ret tt) ;;
  call (PQsetClientEncoding p "UTF-8") ;;
  ret tt.

Definition disconnect : M W unit :=
  try_catch_all
    (o <- get_this ;;
     call (PQfinish (pConn_ o)) ;;
     assign_pConn_ NULL).

(** The destructor. *)
Definition DbConnection_delete : M W unit := disconnect.

Definition conn : M W PGconn_p :=
  o <- get_this ;; ret (pConn_ o).

(** The static overload [conn_stop(conn, msg)]. *)
Definition conn_stop' {A} (c : PGconn_p) (msg : string) : M W A :=
  err <- call (PQerrorMessage c) ;;
  stop (msg ++ ": " ++ err)%string.

(** [conn_stop(msg)] *)
Definition conn_stop {A} (msg : string) : M W A :=
  c <- conn ;; conn_stop' c msg.

Definition check_connection : M W unit :=
  o <- get_this ;;
  (if ptr_eqb (pConn_ o) NULL then stop "Disconnected" else ret tt) ;;
  status <- call (PQstatus (pConn_ o)) ;;
  if ConnStatusType_eqb status CONNECTION_OK then ret tt
  else
    (* Status was bad, so try resetting. *)
    call (PQreset (pConn_ o)) ;;
    status <- call (PQstatus (pConn_ o)) ;;
    if ConnStatusType_eqb status CONNECTION_OK then ret tt
    else conn_stop "Lost connection to database".

Definition cancel_query : M W unit :=
  check_connection ;;
  o <- get_this ;;
  cancel <- call (PQgetCancel (pConn_ o)) ;;
  (if ptr_eqb cancel NULL
   then stop "Connection error detected via PQgetCancel()"
   else ret tt) ;;
  (* char errbuf[256]; PQcancel answers its result and the buffer *)
  a <- call (PQcancel cancel 256) ;;
  (if fst a =? 0 then warning (snd a) else ret tt) ;;
  call (PQfreeCancel cancel).

(** [while ((result = PQgetResult(pConn)) != NULL) PQclear(result);]
    with a bound on the number of rounds. *)
Fixpoint finish_query (fuel : nat) (pConn : PGconn_p) : M W unit :=
  match fuel with
  | O => out_of_fuel
  | S fuel' =>
      result <- call (PQgetResult pConn) ;;
      if ptr_eqb result NULL then ret tt
      else call (PQclear result) ;; finish_query fuel' pConn
  end.

Definition cleanup_query (fuel : nat) : M W unit :=
  o <- get_this ;;
  (match pCurrentResult_ o with
   | Some r =>
       complete <- call (DbResult_complete r) ;;
       if negb complete then cancel_query else ret tt
   | None => ret tt
   end) ;;
  o <- get_this ;;
  finish_query fuel (pConn_ o).

Definition set_current_result (fuel : nat) (pResult : DbResult_p)
  : M W unit :=
  o <- get_this ;;
  (* same result pointer, nothing to do. *)
  if ptr_eqb pResult (pCurrentResult_ o) then ret tt
  else
    (if negb (ptr_eqb (pCurrentResult_ o) NULL)
     then
       (if negb (ptr_eqb pResult NULL)
        then warning "Closing open result set, cancelling previous query"
        else ret tt) ;;
       cleanup_query fuel
     else ret tt) ;;
    assign_pCurrentResult_ pResult.

Definition reset_current_result (fuel : nat) (pResult : DbResult_p)
  : M W unit :=
  o <- get_this ;;
  if negb (ptr_eqb pResult (pCurrentResult_ o)) then ret tt
  else
    cleanup_query fuel ;;
    assign_pCurrentResult_ NULL.

Definition is_current_result (pResult : DbResult_p) : M W bool :=
  o <- get_this ;; ret (ptr_eqb (pCurrentResult_ o) pResult).

Definition has_query : M W bool :=
  o <- get_this ;; ret (negb (ptr_eqb (pCurrentResult_ o) NULL)).

(** The loop of [copy_data]: [for (int i = 0; i < n; ++i)], written on
    the number [n - i] of rows still to send. *)
Fixpoint copy_rows (df : List Cell) (i : Z) (rows_left : nat) : M W unit :=
  match rows_left with
  | O => ret tt
  | S k =>
      (* buffer.clear(); encode_row_in_buffer(df, i, buffer); *)
      let buffer := encode_row_in_buffer df i "" in
      o <- get_this ;;
      r <- call (PQputCopyData (pConn_ o) buffer
                   (static_cast_int (Z.of_nat (String.length buffer)))) ;;
      (if negb (r =? 1) then conn_stop "Failed to put data" else ret tt) ;;
      copy_rows df (i + 1) k
  end.

Definition copy_data (sql : string) (df : List Cell) : M W unit :=
  let p := size df in
  if p =? 0 then ret tt
  else
    o <- get_this ;;
    pInit <- call (PQexec (pConn_ o) sql) ;;
    st <- call (PQresultStatus pInit) ;;
    (if negb (ExecStatusType_eqb st PGRES_COPY_IN)
     then call (PQclear pInit) ;; conn_stop "Failed to initialise COPY"
     else ret tt) ;;
    call (PQclear pInit) ;;
    let n := Rf_length (nth 0 df []) in
    copy_rows df 0 (Z.to_nat n) ;;
    o <- get_this ;;
    r <- call (PQputCopyEnd (pConn_ o) NULL) ;;
    (if negb (r =? 1) then conn_stop "Failed to finish COPY" else ret tt) ;;
    pComplete <- call (PQgetResult (pConn_ o)) ;;
    st <- call (PQresultStatus pComplete) ;;
    (if negb (ExecStatusType_eqb st PGRES_COMMAND_OK)
     then call (PQclear pComplete) ;; conn_stop "COPY returned error"
     else ret tt) ;;
    call (PQclear pComplete).

Definition is_check_interrupts : M W bool :=
  o <- get_this ;; ret (check_interrupts_ o).

(** [static RObject null = Rf_mkCharCE("NULL", CE_UTF8); return null;]
    The static is initialised by the first call that reaches it. *)
Definition get_null_string : M W SEXP :=
  cached <- get_null ;;
  match cached with
  | Some v => ret v
  | None =>
      v <- call (Rf_mkCharCE (Some "NULL"%string) CE_UTF8) ;;
      put_null (Some v) ;;
      ret v
  end.

Definition quote_string (x : String) : M W SEXP :=
  check_connection ;;
  if is_NA_STRING x then get_null_string
  else
    o <- get_this ;;
    pq_escaped <- call (PQescapeLiteral (pConn_ o) (get_cstring x)
                          (static_cast_size_t (-1))) ;;
    escaped <- call (Rf_mkCharCE pq_escaped CE_UTF8) ;;
    call (PQfreemem pq_escaped) ;;
    ret escaped.

Definition quote_identifier (x : String) : M W SEXP :=
  check_connection ;;
  o <- get_this ;;
  pq_escaped <- call (PQescapeIdentifier (pConn_ o) (get_cstring x)
                        (static_cast_size_t (-1))) ;;
  escaped <- call (Rf_mkCharCE pq_escaped CE_UTF8) ;;
  call (PQfreemem pq_escaped) ;;
  ret escaped.

Definition is_transacting : M W bool :=
  o <- get_this ;; ret (transacting_ o).

Definition set_transacting (transacting : bool) : M W unit :=
  assign_transacting_ transacting.

End DbConnection.

(** ** Vocabulary of the specification *)

(** The code throws one kind of exception; the two kinds of the
  specification are the two ways it builds the message: [stop(msg)] and
  [conn_stop(msg)], which appends the native error text. *)
Definition ConnectionError (msg : string) : exception :=
Rcpp_exception msg.
Definition QueryError (msg native_text : string) : exception :=
Rcpp_exception (msg ++ ": " ++ native_text)%string.

(** The calls [check_connection] may make. *)
Definition is_liveness_call (e : Event) : bool :=
match e with
| Ev (PQstatus _) _ | Ev (PQreset _) _ | Ev (PQerrorMessage _) _ => true
| _ => false
end.

(** The calls [finish_query] may make. *)
Definition is_drain_call (e : Event) : bool :=
match e with
| Ev (PQgetResult _) _ | Ev (PQclear _) _ => true
| _ => false
end.

(** The error buffers of the cancel requests that failed. *)
Definition failed_cancel_of (e : Event) : option string :=
match e with
| @Ev R c r =>
    match c in Call R return R -> option string with
    | PQcancel _ _ => fun a => if fst a =? 0 then Some (snd a) else None
    | _ => fun _ => None
    end r
end.

Fixpoint failed_cancels (t : list Event) : list string :=
match t with
| [] => []
| e :: t' =>
    match failed_cancel_of e with
    | Some m => m :: failed_cancels t'
    | None => failed_cancels t'
    end
end.

Section Vocabulary.
Context {W : Type} {X : Extern W}.

(** [Replays w t w']: asked the calls of [t] in order from [w], the world
    gives the answers written in [t] and ends as [w']. *)
Inductive Replays : W -> list Event -> W -> Prop :=
| Replays_nil w : Replays w [] w
| Replays_cons R (c : Call R) (r : R) w w1 t w2 :
    extern c w = (r, w1) -> Replays w1 t w2 ->
    Replays w (Ev c r :: t) w2.

(** The connection hands out at most [n] more results before
    [PQgetResult] answers null. *)
Fixpoint drains (n : nat) (c : PGconn_p) (w : W) : bool :=
  let (r, w1) := extern (PQgetResult c) w in
  match r with
  | None => true
  | Some _ =>
      match n with
      | O => false
      | S n' => drains n' c (snd (extern (PQclear r) w1))
      end
  end.

(** The first statement of [cleanup_query]. *)
Definition cancel_unless_complete : M W unit :=
  o <- get_this ;;
  match pCurrentResult_ o with
  | Some r =>
      complete <- call (DbResult_complete r) ;;
      if negb complete then cancel_query else ret tt
  | None => ret tt
  end.

(** What a method does to the outside: the trace grows by events that
    replay against the world. *)
Definition Sound {A} (m : M W A) : Prop :=
  forall st, exists evs,
    trace (snd (m st)) = trace st ++ evs /\
    Replays (world st) evs (world (snd (m st))).

(** The events of sending rows [i .. i+k-1] with success. *)
Context {Cell : Type}.
Variable encode_row_in_buffer : List Cell -> Z -> string -> string.

Definition put_row (c : PGconn_p) (df : List Cell) (i : Z) (answer : Z)
  : Event :=
  let buffer := encode_row_in_buffer df i "" in
  Ev (PQputCopyData c buffer
        (static_cast_int (Z.of_nat (String.length buffer)))) answer.

Fixpoint rows_sent (c : PGconn_p) (df : List Cell) (i : Z) (k : nat)
  : list Event :=
  match k with
  | O => []
  | S k' => put_row c df i 1 :: rows_sent c df (i + 1) k'
  end.

(** The runs of [copy_data] once the backend has accepted the COPY:
    the events after the initial statement and the outcome. *)
Inductive CopyIn (c : PGconn_p) (df : List Cell) (n : nat)
  : list Event -> Outcome unit -> Prop :=
| CopyIn_put_failed (k : nat) (a : Z) (e : string) :
    (k < n)%nat -> a <> 1 ->
    CopyIn c df n
      (rows_sent c df 0 k ++
       [put_row c df (Z.of_nat k) a; Ev (PQerrorMessage c) e])
      (Throw (QueryError "Failed to put data" e))
| CopyIn_end_failed (a : Z) (e : string) :
    a <> 1 ->
    CopyIn c df n
      (rows_sent c df 0 n ++
       [Ev (PQputCopyEnd c NULL) a; Ev (PQerrorMessage c) e])
      (Throw (QueryError "Failed to finish COPY" e))
| CopyIn_error (res : PGresult_p) (s : ExecStatusType) (e : string) :
    s <> PGRES_COMMAND_OK ->
    CopyIn c df n
      (rows_sent c df 0 n ++
       [Ev (PQputCopyEnd c NULL) 1; Ev (PQgetResult c) res;
        Ev (PQresultStatus res) s; Ev (PQclear res) tt;
        Ev (PQerrorMessage c) e])
      (Throw (QueryError "COPY returned error" e))
| CopyIn_done (res : PGresult_p) :
    CopyIn c df n
      (rows_sent c df 0 n ++
       [Ev (PQputCopyEnd c NULL) 1; Ev (PQgetResult c) res;
        Ev (PQresultStatus res) PGRES_COMMAND_OK; Ev (PQclear res) tt])
      (Ok tt).

End Vocabulary.

(** ** A small simulated backend

  Used to run the methods on concrete inputs. *)
Module Sim.

Record Backend := mkBackend {
  status_now : ConnStatusType;          (* answer of PQstatus *)
  status_after_reset : ConnStatusType;  (* what PQreset makes of it *)
  error_text : string;                  (* answer of PQerrorMessage *)
  cancel_answer : Z * string;           (* answer of PQcancel *)
  pending : list nat;                   (* results PQgetResult hands out *)
  exec_answer : PGresult_p;             (* answer of PQexec *)
  result_status : list (nat * ExecStatusType);
  put_answers : list Z;                 (* answers of PQputCopyData, then 1 *)
  put_end_answer : Z;                   (* answer of PQputCopyEnd *)
  completed : list nat;                 (* results whose complete() holds *)
  next_sexp : nat                       (* next R object *)
}.

Fixpoint status_of (l : list (nat * ExecStatusType)) (r : PGresult_p)
  : ExecStatusType :=
  match l, r with
  | (a, s) :: l', Some b => if Nat.eqb a b then s else status_of l' r
  | _, _ => PGRES_FATAL_ERROR
  end.

Definition answer (R : Type) (c : Call R) (b : Backend) : R * Backend :=
  match c in Call R return R * Backend with
  | PQconnectdbParams _ _ _ => (Some 1%nat, b)
  | PQstatus conn =>
      (match conn with Some _ => status_now b | None => CONNECTION_BAD end,
       b)
  | PQerrorMessage _ => (error_text b, b)
  | PQfinish _ => (tt, b)
  | PQsetClientEncoding _ _ => (0, b)
  | PQreset _ =>
      (tt, mkBackend (status_after_reset b) (status_after_reset b)
             (error_text b) (cancel_answer b) (pending b) (exec_answer b)
             (result_status b) (put_answers b) (put_end_answer b)
             (completed b) (next_sexp b))
  | PQgetCancel conn =>
      (match conn with Some _ => Some 7%nat | None => None end, b)
  | PQcancel _ _ => (cancel_answer b, b)
  | PQfreeCancel _ => (tt, b)
  | PQgetResult _ =>
      match pending b with
      | [] => (None, b)
      | r :: rest =>
          (Some r,
           mkBackend (status_now b) (status_after_reset b)
             (error_text b) (cancel_answer b) rest (exec_answer b)
             (result_status b) (put_answers b) (put_end_answer b)
             (completed b) (next_sexp b))
      end
  | PQclear _ => (tt, b)
  | PQexec _ _ => (exec_answer b, b)
  | PQresultStatus r => (status_of (result_status b) r, b)
  | PQputCopyData _ _ _ =>
      match put_answers b with
      | [] => (1, b)
      | a :: rest =>
          (a,
           mkBackend (status_now b) (status_after_reset b)
             (error_text b) (cancel_answer b) (pending b) (exec_answer b)
             (result_status b) rest (put_end_answer b)
             (completed b) (next_sexp b))
      end
  | PQputCopyEnd _ _ => (put_end_answer b, b)
  | PQescapeLiteral _ s _ => (Some ("'" ++ s ++ "'")%string, b)
  | PQescapeIdentifier _ s _ => (Some ("[" ++ s ++ "]")%string, b)
  | PQfreemem _ => (tt, b)
  | Rf_mkCharCE _ _ =>
      (next_sexp b,
       mkBackend (status_now b) (status_after_reset b)
         (error_text b) (cancel_answer b) (pending b) (exec_answer b)
         (result_status b) (put_answers b) (put_end_answer b)
         (completed b) (S (next_sexp b)))
  | Rf_warning _ => (tt, b)
  | DbResult_complete r => (existsb (Nat.eqb r) (completed b), b)
  end.

#[global] Instance Backend_Extern : Extern Backend := answer.

(** A healthy backend: the COPY of [exec_answer] is accepted, one
    result (number 20, command OK) waits to be fetched. *)
Definition healthy : Backend :=
  mkBackend CONNECTION_OK CONNECTION_OK "no error" (1, ""%string)
    [20%nat] (Some 10%nat)
    [(10%nat, PGRES_COPY_IN); (20%nat, PGRES_COMMAND_OK)]
    [] 1 [] 100.

(** The session is gone and a reset does not bring it back. *)
Definition lost : Backend :=
  mkBackend CONNECTION_BAD CONNECTION_BAD "server closed the connection"
    (1, ""%string) [] None [] [] 0 [] 100.

(** The session was bad, a reset repairs it. *)
Definition repairable : Backend :=
  mkBackend CONNECTION_BAD CONNECTION_OK "no error" (1, ""%string)
    [] None [] [] 1 [] 100.

(** A healthy session on which cancel requests fail. *)
Definition cancel_refused : Backend :=
  mkBackend CONNECTION_OK CONNECTION_OK "no error"
    (0, "PQcancel() -- connect() failed: "%string)
    [20%nat] (Some 10%nat)
    [(10%nat, PGRES_COPY_IN); (20%nat, PGRES_COMMAND_OK)]
    [] 1 [] 100.

(** The statement is not a COPY: its result is a set of tuples. *)
Definition not_a_copy : Backend :=
  mkBackend CONNECTION_OK CONNECTION_OK "no error" (1, ""%string)
    [] (Some 10%nat) [(10%nat, PGRES_TUPLES_OK)] [] 1 [] 100.

(** An object connected through handle 1 that tracks result [cur]. *)
Definition connected (cur : DbResult_p) (b : Backend) : State Backend :=
  mkState (mkDbConnection (Some 1%nat) cur false false) None b [].

(** An object after [disconnect()] that still tracks result [cur]. *)
Definition disconnected (cur : DbResult_p) (b : Backend) : State Backend :=
  mkState (mkDbConnection None cur false false) None b [].

(** Cells are numbers; the bytes of row [i] are one character, the
    digit [i]. *)
Definition encode (df : List Z) (i : Z) (buffer : string) : string :=
  (buffer ++ String.String (Ascii.ascii_of_nat (48 + Z.to_nat i)) EmptyString)%string.

End Sim.

(** ** The rest of the class *)

(** More readers of a trace. *)
Definition is_PQstatus (e : Event) : bool :=
  match e with Ev (PQstatus _) _ => true | _ => false end.
Definition is_PQclear (e : Event) : bool :=
  match e with Ev (PQclear _) _ => true | _ => false end.
Definition is_PQfinish (e : Event) : bool :=
  match e with Ev (PQfinish _) _ => true | _ => false end.

(** The calls that hand a result object to the caller. *)
Definition is_result_source (e : Event) : bool :=
  match e with
  | Ev (PQexec _ _) _ | Ev (PQgetResult _) _ => true
  | _ => false
  end.

(** The calls [copy_data] may make. *)
Definition is_copy_call (e : Event) : bool :=
  match e with
  | Ev (PQexec _ _) _ | Ev (PQresultStatus _) _ | Ev (PQclear _) _
  | Ev (PQputCopyData _ _ _) _ | Ev (PQputCopyEnd _ _) _
  | Ev (PQgetResult _) _ | Ev (PQerrorMessage _) _ => true
  | _ => false
  end.

(** The calls of a cancel request. *)
Definition is_cancel_call (e : Event) : bool :=
  match e with
  | Ev (PQgetCancel _) _ | Ev (PQcancel _ _) _ | Ev (PQfreeCancel _) _ => true
  | _ => false
  end.

(** The calls of a drain that meets the results [rs] and then the end:
    each one is fetched and cleared before the next is asked for. *)
Fixpoint drain_events (c : PGconn_p) (rs : list nat) : list Event :=
  match rs with
  | [] => [Ev (PQgetResult c) None]
  | r :: rs' =>
      Ev (PQgetResult c) (Some r) :: Ev (PQclear (Some r)) tt ::
      drain_events c rs'
  end.

(** Two objects on the same session with the same flags. *)
Definition same_session (o o' : DbConnection) : Prop :=
  pConn_ o' = pConn_ o /\
  transacting_ o' = transacting_ o /\
  check_interrupts_ o' = check_interrupts_ o.

(** The descriptive accessors of libpq that [info()] reads.  They return
    fields of the connection object and change nothing, so they are
    readers of the world and leave no event. *)
Class SessionInfo (W : Type) := {
  PQdb : PGconn_p -> W -> char_p;
  PQhost : PGconn_p -> W -> char_p;
  PQport : PGconn_p -> W -> char_p;
  PQuser : PGconn_p -> W -> char_p;
  PQprotocolVersion : PGconn_p -> W -> Z;
  PQserverVersion : PGconn_p -> W -> Z;
  PQbackendPID : PGconn_p -> W -> Z
}.

(** The named list that [info()] creates. *)
Record InfoList := mkInfoList {
  dbname : string;
  host : string;
  port : string;
  user : string;
  protocol_version : Z;
  server_version : Z;
  pid : Z
}.

(** [p == NULL ? "" : std::string(p)] *)
Definition string_or_empty (p : char_p) : string :=
  match p with
  | None => ""
  | Some s => s
  end.

Section Rest.
Context {W : Type} {X : Extern W} {I : SessionInfo W}.

Definition get_world : M W W := fun st => (Ok (world st), st).

Definition info : M W InfoList :=
  check_connection ;;
  o <- get_this ;;
  w <- get_world ;;
  let dbnm := PQdb (pConn_ o) w in
  let host := PQhost (pConn_ o) w in
  let port := PQport (pConn_ o) w in
  let user := PQuser (pConn_ o) w in
  let pver := PQprotocolVersion (pConn_ o) w in
  let sver := PQserverVersion (pConn_ o) w in
  let pid := PQbackendPID (pConn_ o) w in
  ret (mkInfoList (string_or_empty dbnm) (string_or_empty host)
         (string_or_empty port) (string_or_empty user) pver sver pid).

(** A method that leaves the fields of the object as they are. *)
Definition Keeps_object {A} (m : M W A) : Prop :=
  forall st, this (snd (m st)) = this st.

(** The tracked result, if there is one, says that it is complete. *)
Definition tracked_settled (st : State W) : bool :=
  match pCurrentResult_ (this st) with
  | None => true
  | Some r => fst (extern (DbResult_complete r) (world st))
  end.

End Rest.

(** The simulated session: database [test] of user [alice] behind a
    local socket, so no host name. *)
#[global] Instance Backend_SessionInfo : SessionInfo Sim.Backend := {|
  PQdb := fun _ _ => Some "test"%string;
  PQhost := fun _ _ => None;
  PQport := fun _ _ => Some "5432"%string;
  PQuser := fun _ _ => Some "alice"%string;
  PQprotocolVersion := fun _ _ => 3;
  PQserverVersion := fun _ _ => 90600;
  PQbackendPID := fun _ _ => 4242
|}.

(** A healthy simulated backend on which result 1 is complete. *)
Definition result_1_complete : Sim.Backend :=
  Sim.mkBackend CONNECTION_OK CONNECTION_OK "no error" (1, ""%string)
    [20%nat] (Some 10%nat)
    [(10%nat, PGRES_COPY_IN); (20%nat, PGRES_COMMAND_OK)]
    [] 1 [1%nat] 100.

(** ** Properties *)

Lemma ConnStatusType_eqb_eq (a b : ConnStatusType) :
  ConnStatusType_eqb a b = true <-> a = b.
Proof. destruct a, b; cbn; split; intro H; try reflexivity; discriminate H. Qed.

Lemma ExecStatusType_eqb_eq (a b : ExecStatusType) :
  ExecStatusType_eqb a b = true <-> a = b.
Proof. destruct a, b; cbn; split; intro H; try reflexivity; discriminate H. Qed.

Lemma ConnStatusType_eqb_neq (a b : ConnStatusType) :
  ConnStatusType_eqb a b = false <-> a <> b.
Proof.
  split.
  - intros H E. apply ConnStatusType_eqb_eq in E. congruence.
  - intro H. destruct (ConnStatusType_eqb a b) eqn:E; [|reflexivity].
    apply ConnStatusType_eqb_eq in E. contradiction.
Qed.

Lemma ExecStatusType_eqb_neq (a b : ExecStatusType) :
  ExecStatusType_eqb a b = false <-> a <> b.
Proof.
  split.
  - intros H E. apply ExecStatusType_eqb_eq in E. congruence.
  - intro H. destruct (ExecStatusType_eqb a b) eqn:E; [|reflexivity].
    apply ExecStatusType_eqb_eq in E. contradiction.
Qed.

Lemma ptr_eqb_eq (p q : option nat) : ptr_eqb p q = true <-> p = q.
Proof.
  destruct p as [a|], q as [b|]; cbn; split; intro H;
    try reflexivity; try discriminate H.
  - apply Nat.eqb_eq in H. now subst.
  - injection H as ->. apply Nat.eqb_refl.
Qed.

Lemma ptr_eqb_refl (p : option nat) : ptr_eqb p p = true.
Proof. now apply ptr_eqb_eq. Qed.

Lemma ptr_eqb_neq (p q : option nat) : ptr_eqb p q = false <-> p <> q.
Proof.
  split.
  - intros H E. apply ptr_eqb_eq in E. congruence.
  - intro H. destruct (ptr_eqb p q) eqn:E; [|reflexivity].
    apply ptr_eqb_eq in E. contradiction.
Qed.

(** Ask the world for the answer to the next call of the goal. *)
Ltac ask :=
  match goal with
  | |- context [extern ?c ?w] =>
      let a := fresh "a" in
      let w' := fresh "w" in
      let E := fresh "E" in
      destruct (extern c w) as [a w'] eqn:E;
      try (match type of a with unit => destruct a end);
      cbn
  end.

Ltac replays :=
  repeat (first [ apply Replays_nil
                | eapply Replays_cons; [eassumption|] ]).

Section Soundness.
Context {W : Type} {X : Extern W}.

Lemma Replays_app (w w1 w2 : W) (t1 t2 : list Event) :
  Replays w t1 w1 -> Replays w1 t2 w2 -> Replays w (t1 ++ t2) w2.
Proof.
  induction 1 as [|R c r w w' t w1 E H IH]; cbn; intro H2.
  - exact H2.
  - eapply Replays_cons; [exact E | exact (IH H2)].
Qed.

Lemma Replays_nil_inv (w w' : W) : Replays w [] w' -> w = w'.
Proof. inversion 1. reflexivity. Qed.

Lemma Sound_ret A (a : A) : Sound (ret (W:=W) a).
Proof. intro st. exists []. cbn. rewrite app_nil_r. split; [reflexivity | constructor]. Qed.

Lemma Sound_stop A (msg : string) : Sound (stop (W:=W) (A:=A) msg).
Proof. intro st. exists []. cbn. rewrite app_nil_r. split; [reflexivity | constructor]. Qed.

Lemma Sound_out_of_fuel A : Sound (out_of_fuel (W:=W) (A:=A)).
Proof. intro st. exists []. cbn. rewrite app_nil_r. split; [reflexivity | constructor]. Qed.

Lemma Sound_get_this : Sound (get_this (W:=W)).
Proof. intro st. exists []. cbn. rewrite app_nil_r. split; [reflexivity | constructor]. Qed.

Lemma Sound_put_this (o : DbConnection) : Sound (put_this (W:=W) o).
Proof. intro st. exists []. cbn. rewrite app_nil_r. split; [reflexivity | constructor]. Qed.

Lemma Sound_get_null : Sound (get_null (W:=W)).
Proof. intro st. exists []. cbn. rewrite app_nil_r. split; [reflexivity | constructor]. Qed.

Lemma Sound_put_null (v : option SEXP) : Sound (put_null (W:=W) v).
Proof. intro st. exists []. cbn. rewrite app_nil_r. split; [reflexivity | constructor]. Qed.

Lemma Sound_call R (c : Call R) : Sound (call c).
Proof.
  intro st. unfold call. destruct (extern c (world st)) as [r w'] eqn:E.
  exists [Ev c r]. cbn. split; [reflexivity|]. replays.
Qed.

Lemma Sound_bind A B (m : M W A) (f : A -> M W B) :
  Sound m -> (forall a, Sound (f a)) -> Sound (bind m f).
Proof.
  intros Hm Hf st. destruct (Hm st) as (e1 & T1 & R1).
  unfold bind. destruct (m st) as [[a|e|] st1]; cbn in *.
  - destruct (Hf a st1) as (e2 & T2 & R2). exists (e1 ++ e2). split.
    + rewrite T2, T1. symmetry. apply app_assoc.
    + eapply Replays_app; eassumption.
  - exists e1. now split.
  - exists e1. now split.
Qed.

Lemma Sound_try_catch_all (body : M W unit) :
  Sound body -> Sound (try_catch_all body).
Proof.
  intros Hb st. destruct (Hb st) as (e1 & T1 & R1).
  unfold try_catch_all. destruct (body st) as [[a|e|] st1]; cbn in *;
    exists e1; now split.
Qed.

End Soundness.

Create HintDb sound.
#[export] Hint Resolve Sound_ret Sound_stop Sound_out_of_fuel Sound_get_this
  Sound_put_this Sound_get_null Sound_put_null Sound_call
  Sound_try_catch_all : sound.

(** Soundness of a method built from binds, branches and sound parts. *)
Ltac sound :=
  repeat first
    [ progress auto with sound
    | apply Sound_bind; [|intro]
    | apply Sound_try_catch_all
    | match goal with
      | |- Sound (if ?b then _ else _) => destruct b
      | |- Sound (match ?x with _ => _ end) => destruct x
      end ].

Section MethodsSound.
Context {W : Type} {X : Extern W}.

Lemma Sound_assign_pConn_ p : Sound (assign_pConn_ (W:=W) p).
Proof. unfold assign_pConn_. sound. Qed.

Lemma Sound_assign_pCurrentResult_ r : Sound (assign_pCurrentResult_ (W:=W) r).
Proof. unfold assign_pCurrentResult_. sound. Qed.

Lemma Sound_conn_stop A msg : Sound (conn_stop (W:=W) (A:=A) msg).
Proof. unfold conn_stop, conn_stop', conn. sound. Qed.

Lemma Sound_check_connection : Sound (check_connection (W:=W)).
Proof. unfold check_connection. pose proof Sound_conn_stop. sound. Qed.

Lemma Sound_cancel_query : Sound (cancel_query (W:=W)).
Proof.
  unfold cancel_query, warning. pose proof Sound_check_connection. sound.
Qed.

Lemma Sound_finish_query fuel c : Sound (finish_query (W:=W) fuel c).
Proof. induction fuel as [|fuel IH]; cbn [finish_query]; sound. Qed.

Lemma Sound_cleanup_query fuel : Sound (cleanup_query (W:=W) fuel).
Proof.
  unfold cleanup_query.
  pose proof Sound_cancel_query. pose proof Sound_finish_query. sound.
Qed.

Lemma Sound_set_current_result fuel p :
  Sound (set_current_result (W:=W) fuel p).
Proof.
  unfold set_current_result, warning.
  pose proof Sound_cleanup_query. pose proof Sound_assign_pCurrentResult_.
  sound.
Qed.

Lemma Sound_reset_current_result fuel p :
  Sound (reset_current_result (W:=W) fuel p).
Proof.
  unfold reset_current_result.
  pose proof Sound_cleanup_query. pose proof Sound_assign_pCurrentResult_.
  sound.
Qed.

Lemma Sound_disconnect : Sound (disconnect (W:=W)).
Proof. unfold disconnect. pose proof Sound_assign_pConn_. sound. Qed.

Lemma Sound_get_null_string : Sound (get_null_string (W:=W)).
Proof. unfold get_null_string. sound. Qed.

Lemma Sound_quote_string x : Sound (quote_string (W:=W) x).
Proof.
  unfold quote_string.
  pose proof Sound_check_connection. pose proof Sound_get_null_string. sound.
Qed.

Lemma Sound_quote_identifier x : Sound (quote_identifier (W:=W) x).
Proof. unfold quote_identifier. pose proof Sound_check_connection. sound. Qed.

Context {Cell : Type}.
Variable encode_row_in_buffer : List Cell -> Z -> string -> string.

Lemma Sound_copy_rows df i k :
  Sound (copy_rows (W:=W) encode_row_in_buffer df i k).
Proof.
  revert i. induction k as [|k IH]; intro i; cbn [copy_rows];
    pose proof Sound_conn_stop; sound.
Qed.

Lemma Sound_copy_data sql df :
  Sound (copy_data (W:=W) encode_row_in_buffer sql df).
Proof.
  unfold copy_data.
  pose proof Sound_conn_stop. pose proof Sound_copy_rows. sound.
Qed.

Lemma Sound_DbConnection_new keys values ci :
  Sound (DbConnection_new (W:=W) keys values ci).
Proof. unfold DbConnection_new. pose proof Sound_assign_pConn_. sound. Qed.

End MethodsSound.

Ltac unfold_methods :=
  unfold disconnect, check_connection, conn_stop, conn_stop', conn,
    assign_pConn_, assign_pCurrentResult_, warning, try_catch_all,
    bind, call, get_this, put_this, get_null, put_null, ret, stop,
    out_of_fuel, NULL in *.

Section Connection.
Context {W : Type} {X : Extern W}.

(** C9: [disconnect()] never raises; it hands the handle it holds to
    [PQfinish] and leaves [pConn_] null and the other fields as they were.
    A second call in a row does not raise either, hands the null handle to
    [PQfinish] and leaves the object exactly as the first call left it;
    where the library ignores a null handle, as libpq does, the world
    outside is as the first call left it, too. *)
Theorem disconnect_idempotent (st : State W) :
  let st1 := snd (disconnect st) in
  let st2 := snd (disconnect st1) in
  fst (disconnect st) = Ok tt /\
  fst (disconnect st1) = Ok tt /\
  pConn_ (this st1) = NULL /\
  pCurrentResult_ (this st1) = pCurrentResult_ (this st) /\
  transacting_ (this st1) = transacting_ (this st) /\
  check_interrupts_ (this st1) = check_interrupts_ (this st) /\
  trace st1 = trace st ++ [Ev (PQfinish (pConn_ (this st))) tt] /\
  this st2 = this st1 /\
  null st2 = null st /\
  trace st2 = trace st1 ++ [Ev (PQfinish NULL) tt] /\
  (extern (PQfinish NULL) (world st1) = (tt, world st1) ->
   world st2 = world st1).
Proof.
  destruct st as [[pc cur tr ci] nl w t].
  unfold_methods. cbn. ask. ask. repeat split.
  intro H. now injection H.
Qed.

(** C3: [check_connection] changes no field of the object.  Without a
    native handle it raises "Disconnected" and calls nothing.  With a
    handle its calls are, in this order: [PQstatus], and nothing more when
    the answer is [CONNECTION_OK]; otherwise one [PQreset] and a second
    [PQstatus], after which it returns when the answer is
    [CONNECTION_OK], and otherwise asks [PQerrorMessage] and raises
    "Lost connection to database: " followed by that text.  There is never
    more than one [PQreset]. *)
Theorem check_connection_spec (st : State W) :
  let r := fst (check_connection st) in
  let st' := snd (check_connection st) in
  this st' = this st /\ null st' = null st /\
  exists evs,
    trace st' = trace st ++ evs /\
    Replays (world st) evs (world st') /\
    (count is_PQreset evs <= 1)%nat /\
    match pConn_ (this st) with
    | None => r = Throw (ConnectionError "Disconnected") /\ evs = []
    | Some h =>
        let c := Some h in
        (r = Ok tt /\ evs = [Ev (PQstatus c) CONNECTION_OK]) \/
        (exists s1, s1 <> CONNECTION_OK /\ r = Ok tt /\
           evs = [Ev (PQstatus c) s1; Ev (PQreset c) tt;
                  Ev (PQstatus c) CONNECTION_OK]) \/
        (exists s1 s2 e, s1 <> CONNECTION_OK /\ s2 <> CONNECTION_OK /\
           r = Throw (QueryError "Lost connection to database" e) /\
           evs = [Ev (PQstatus c) s1; Ev (PQreset c) tt;
                  Ev (PQstatus c) s2; Ev (PQerrorMessage c) e])
    end.
Proof.
  destruct st as [[pc cur tr ci] nl w t].
  unfold_methods. cbn. destruct pc as [h|]; cbn.
  - ask. destruct (ConnStatusType_eqb a CONNECTION_OK) eqn:S1; cbn.
    + apply ConnStatusType_eqb_eq in S1. subst a.
      repeat split. eexists. split; [reflexivity|].
      split; [replays|]. split; [cbn; lia|]. left. now split.
    + apply ConnStatusType_eqb_neq in S1. ask. ask.
      destruct (ConnStatusType_eqb a0 CONNECTION_OK) eqn:S2; cbn.
      * apply ConnStatusType_eqb_eq in S2. subst a0.
        repeat split. eexists. split; [rewrite <- !app_assoc; reflexivity|].
        split; [replays|]. split; [cbn; lia|].
        right; left. exists a. now repeat split.
      * apply ConnStatusType_eqb_neq in S2. ask.
        repeat split. eexists. split; [rewrite <- !app_assoc; reflexivity|].
        split; [replays|]. split; [cbn; lia|].
        right; right. exists a, a0, a1. now repeat split.
  - repeat split. exists []. rewrite app_nil_r.
    repeat split. constructor. cbn; lia.
Qed.

End Connection.

Lemma warnings_app (t1 t2 : list Event) :
  warnings (t1 ++ t2) = warnings t1 ++ warnings t2.
Proof.
  induction t1 as [|e t1 IH]; cbn; [reflexivity|].
  destruct (warning_of e); cbn; now rewrite IH.
Qed.

Lemma failed_cancels_app (t1 t2 : list Event) :
  failed_cancels (t1 ++ t2) = failed_cancels t1 ++ failed_cancels t2.
Proof.
  induction t1 as [|e t1 IH]; cbn; [reflexivity|].
  destruct (failed_cancel_of e); cbn; now rewrite IH.
Qed.

Lemma count_app (p : Event -> bool) (t1 t2 : list Event) :
  count p (t1 ++ t2) = (count p t1 + count p t2)%nat.
Proof. unfold count. now rewrite filter_app, length_app. Qed.

Section Copy.
Context {W : Type} {X : Extern W}.
Context {Cell : Type}.
Variable encode_row_in_buffer : List Cell -> Z -> string -> string.

Lemma rows_sent_puts c df i k :
  count is_PQputCopyData (rows_sent encode_row_in_buffer c df i k) = k.
Proof.
  revert i. induction k as [|k IH]; intro i; [reflexivity|].
  cbn [rows_sent]. unfold count in *. cbn. now rewrite IH.
Qed.

(** The loop: rows [i], [i+1], ... are sent in order until one is
    refused or [k] rows have gone. *)
Lemma copy_rows_run (df : List Cell) (k : nat) (i : Z) (st : State W) :
  let c := pConn_ (this st) in
  let r := fst (copy_rows encode_row_in_buffer df i k st) in
  let st' := snd (copy_rows encode_row_in_buffer df i k st) in
  this st' = this st /\ null st' = null st /\
  ((r = Ok tt /\
    trace st' = trace st ++ rows_sent encode_row_in_buffer c df i k) \/
   (exists j a e, (j < k)%nat /\ a <> 1 /\
      r = Throw (QueryError "Failed to put data" e) /\
      trace st' =
        trace st ++ rows_sent encode_row_in_buffer c df i j ++
        [put_row encode_row_in_buffer c df (i + Z.of_nat j) a;
         Ev (PQerrorMessage c) e])).
Proof.
  revert i st. induction k as [|k IH]; intros i st.
  - cbn. repeat split. left. split; [reflexivity|]. now rewrite app_nil_r.
  - destruct st as [[pc cur tr ci] nl w t].
    cbn [copy_rows]. unfold_methods. cbn. ask.
    destruct (a =? 1) eqn:A; cbn.
    + apply Z.eqb_eq in A. subst a.
      match goal with
      | |- context [copy_rows _ _ _ _ ?s] => specialize (IH (i + 1) s)
      end.
      cbn in IH. destruct IH as (T & N & [[R Tr] | (j & a & e & J & A & R & Tr)]).
      * repeat split; try assumption. left. split; [assumption|].
        rewrite Tr, <- app_assoc. reflexivity.
      * repeat split; try assumption. right. exists (S j), a, e.
        repeat split; try assumption; [lia|].
        rewrite Tr, <- app_assoc. cbn [rows_sent app].
        replace (i + Z.of_nat (S j)) with (i + 1 + Z.of_nat j) by lia.
        reflexivity.
    + apply Z.eqb_neq in A. ask. repeat split. right.
      exists 0%nat, a, a0. repeat split; [lia | assumption |].
      cbn [rows_sent app]. rewrite Z.add_0_r, <- app_assoc. reflexivity.
Qed.

Ltac run_shape res s :=
  split; [reflexivity|]; split; [reflexivity|];
  exists res, s; eexists;
  split; [reflexivity|];
  split;
    [ match goal with
      | H : extern (PQresultStatus res) _ = _ |- _ => rewrite H; reflexivity
      end |];
  split;
    [ rewrite <- ?app_assoc; cbn [app]; rewrite <- ?app_assoc; reflexivity |].

(** Every run of [copy_data] on a table with a column: the initial
    statement, then either the refusal or a copy-in run. *)
Lemma copy_data_run (sql : string) (df : List Cell) (st : State W) :
  df <> [] ->
  let c := pConn_ (this st) in
  let n := List.length (nth 0 df []) in
  let r := fst (copy_data encode_row_in_buffer sql df st) in
  let st' := snd (copy_data encode_row_in_buffer sql df st) in
  this st' = this st /\ null st' = null st /\
  exists res s evs,
    fst (extern (PQexec c sql) (world st)) = res /\
    fst (extern (PQresultStatus res)
           (snd (extern (PQexec c sql) (world st)))) = s /\
    trace st' =
      trace st ++
      Ev (PQexec c sql) res :: Ev (PQresultStatus res) s ::
      Ev (PQclear res) tt :: evs /\
    ((s <> PGRES_COPY_IN /\ exists e,
        evs = [Ev (PQerrorMessage c) e] /\
        r = Throw (QueryError "Failed to initialise COPY" e)) \/
     (s = PGRES_COPY_IN /\ CopyIn encode_row_in_buffer c df n evs r)).
Proof.
  intros Hdf. destruct df as [|col rest]; [contradiction|].
  destruct st as [[pc cur tr ci] nl w t].
  unfold copy_data. unfold_methods. cbn -[copy_rows]. ask.
  rename a into res. ask. rename a into s.
  destruct (ExecStatusType_eqb s PGRES_COPY_IN) eqn:S1; cbn -[copy_rows].
  - apply ExecStatusType_eqb_eq in S1. subst s. ask.
    unfold Rf_length. rewrite Nat2Z.id.
    match goal with
    | |- context [copy_rows _ _ _ _ ?s] =>
        pose proof (copy_rows_run (col :: rest) (List.length col) 0 s) as L;
        destruct (copy_rows encode_row_in_buffer (col :: rest) 0
                    (List.length col) s) as [r1 st1]
    end.
    cbn in L. destruct L as (T & N & L).
    destruct st1 as [o1 nl1 wr t1]. cbn in T, N, L. subst o1 nl1.
    destruct L as [[R Tr] | (j & a & e & J & A & R & Tr)]; subst r1 t1.
    + ask. destruct (a =? 1) eqn:A; cbn.
      * apply Z.eqb_eq in A. subst a. ask. rename a into res2. ask.
        rename a into s2.
        destruct (ExecStatusType_eqb s2 PGRES_COMMAND_OK) eqn:S2; cbn.
        -- apply ExecStatusType_eqb_eq in S2. subst s2. ask.
           run_shape res PGRES_COPY_IN.
           right. split; [reflexivity|]. apply (CopyIn_done _ _ _ _ res2).
        -- apply ExecStatusType_eqb_neq in S2. ask. ask.
           run_shape res PGRES_COPY_IN.
           right. split; [reflexivity|].
           apply (CopyIn_error _ _ _ _ res2 s2 a); assumption.
      * apply Z.eqb_neq in A. ask.
        run_shape res PGRES_COPY_IN.
        right. split; [reflexivity|].
        apply (CopyIn_end_failed _ _ _ _ a a0); assumption.
    + cbn. rewrite ?Z.add_0_l.
      run_shape res PGRES_COPY_IN.
      right. split; [reflexivity|].
      apply (CopyIn_put_failed _ _ _ _ j a e); assumption.
  - apply ExecStatusType_eqb_neq in S1. ask. ask.
    run_shape res s.
    left. split; [assumption|]. exists a. split; reflexivity.
Qed.

(** The events of a run, once known, replay against the world. *)
Lemma copy_data_replays sql df (st : State W) evs :
  trace (snd (copy_data encode_row_in_buffer sql df st)) = trace st ++ evs ->
  Replays (world st) evs
    (world (snd (copy_data encode_row_in_buffer sql df st))).
Proof.
  intro Tr.
  destruct (Sound_copy_data encode_row_in_buffer sql df st) as (e0 & T0 & R0).
  rewrite T0 in Tr. apply app_inv_head in Tr. now subst e0.
Qed.

(** C8: on a table without columns [copy_data] returns at once: the
    outcome is success and the whole state, the trace of calls included,
    is the one it started from, so nothing was called. *)
Theorem copy_data_zero_columns (sql : string) (df : List Cell)
        (st : State W) :
  size df = 0 ->
  copy_data encode_row_in_buffer sql df st = (Ok tt, st).
Proof.
  intro H. unfold copy_data. rewrite H. reflexivity.
Qed.

(** C2: on a table with a column, when the result of the initial
    statement has a status other than [PGRES_COPY_IN], [copy_data] clears
    that result, asks the native error text and raises
    "Failed to initialise COPY: " followed by that text.  These four calls
    are all it makes: no row is handed to [PQputCopyData], and the object
    is unchanged. *)
Theorem copy_data_not_initialised (sql : string) (df : List Cell)
        (st : State W) (res : PGresult_p) (s : ExecStatusType) :
  df <> [] ->
  fst (extern (PQexec (pConn_ (this st)) sql) (world st)) = res ->
  fst (extern (PQresultStatus res)
         (snd (extern (PQexec (pConn_ (this st)) sql) (world st)))) = s ->
  s <> PGRES_COPY_IN ->
  exists (e : string) (evs : list Event),
    fst (copy_data encode_row_in_buffer sql df st) =
      Throw (QueryError "Failed to initialise COPY" e) /\
    evs = [Ev (PQexec (pConn_ (this st)) sql) res;
           Ev (PQresultStatus res) s;
           Ev (PQclear res) tt;
           Ev (PQerrorMessage (pConn_ (this st))) e] /\
    trace (snd (copy_data encode_row_in_buffer sql df st)) =
      trace st ++ evs /\
    Replays (world st) evs
      (world (snd (copy_data encode_row_in_buffer sql df st))) /\
    count is_PQputCopyData evs = 0%nat /\
    this (snd (copy_data encode_row_in_buffer sql df st)) = this st.
Proof.
  intros Hdf Hres Hs Hne.
  destruct (copy_data_run sql df st Hdf)
    as (T & N & res' & s' & evs & E1 & E2 & Tr & Sh).
  rewrite Hres in E1. subst res'. rewrite Hs in E2. subst s'.
  destruct Sh as [(_ & e & -> & R) | (C & _)]; [|contradiction].
  exists e. eexists. split; [exact R|]. split; [reflexivity|].
  split; [exact Tr|]. split; [now apply copy_data_replays|].
  split; [reflexivity | exact T].
Qed.

(** C5: on a table with a column, once the initial statement has been
    answered with [PGRES_COPY_IN], [copy_data] encodes and sends the rows
    0, 1, ... in this order, as many as the first column is long.  The
    first row that [PQputCopyData] does not answer with 1 ends the run
    with "Failed to put data".  After the last row comes [PQputCopyEnd],
    and an answer other than 1 ends the run with "Failed to finish COPY".
    Then the final result is fetched and cleared, and the run ends with
    "COPY returned error" unless its status is [PGRES_COMMAND_OK].  These
    are the four cases of [CopyIn]. *)
Theorem copy_data_rows (sql : string) (df : List Cell) (st : State W)
        (res : PGresult_p) :
  df <> [] ->
  fst (extern (PQexec (pConn_ (this st)) sql) (world st)) = res ->
  fst (extern (PQresultStatus res)
         (snd (extern (PQexec (pConn_ (this st)) sql) (world st)))) =
    PGRES_COPY_IN ->
  exists evs : list Event,
    trace (snd (copy_data encode_row_in_buffer sql df st)) =
      trace st ++
      [Ev (PQexec (pConn_ (this st)) sql) res;
       Ev (PQresultStatus res) PGRES_COPY_IN;
       Ev (PQclear res) tt] ++ evs /\
    Replays (world st)
      ([Ev (PQexec (pConn_ (this st)) sql) res;
        Ev (PQresultStatus res) PGRES_COPY_IN;
        Ev (PQclear res) tt] ++ evs)
      (world (snd (copy_data encode_row_in_buffer sql df st))) /\
    CopyIn encode_row_in_buffer (pConn_ (this st)) df
      (List.length (nth 0 df [])) evs
      (fst (copy_data encode_row_in_buffer sql df st)) /\
    (count is_PQputCopyData evs <= List.length (nth 0 df []))%nat /\
    (fst (copy_data encode_row_in_buffer sql df st) = Ok tt ->
     count is_PQputCopyData evs = List.length (nth 0 df [])) /\
    this (snd (copy_data encode_row_in_buffer sql df st)) = this st.
Proof.
  intros Hdf Hres Hs.
  destruct (copy_data_run sql df st Hdf)
    as (T & N & res' & s' & evs & E1 & E2 & Tr & Sh).
  rewrite Hres in E1. subst res'. rewrite Hs in E2. subst s'.
  destruct Sh as [(C & _) | (_ & R)]; [contradiction|].
  exists evs. split; [exact Tr|]. split; [now apply copy_data_replays|].
  split; [exact R|]. split; [|split; [|exact T]].
  - destruct R; rewrite count_app, rows_sent_puts; cbn; lia.
  - destruct R; intro O; try discriminate O.
    rewrite count_app, rows_sent_puts. cbn. lia.
Qed.

(** C10: a table whose first column is empty is not a table without
    columns.  [copy_data] runs the statement and requires
    [PGRES_COPY_IN]; it hands no row to [PQputCopyData]; it signals the
    end of the copy and checks the final result for [PGRES_COMMAND_OK]. *)
Theorem copy_data_zero_rows (sql : string) (rest : list (Column Cell))
        (st : State W) :
  let df : List Cell := [] :: rest in
  let c := pConn_ (this st) in
  let r := fst (copy_data encode_row_in_buffer sql df st) in
  let st' := snd (copy_data encode_row_in_buffer sql df st) in
  exists (res : PGresult_p) (s : ExecStatusType) (evs : list Event),
    trace st' =
      trace st ++
      Ev (PQexec c sql) res :: Ev (PQresultStatus res) s ::
      Ev (PQclear res) tt :: evs /\
    Replays (world st)
      (Ev (PQexec c sql) res :: Ev (PQresultStatus res) s ::
       Ev (PQclear res) tt :: evs) (world st') /\
    count is_PQputCopyData evs = 0%nat /\
    ((s <> PGRES_COPY_IN /\ exists e,
        evs = [Ev (PQerrorMessage c) e] /\
        r = Throw (QueryError "Failed to initialise COPY" e)) \/
     (s = PGRES_COPY_IN /\
      ((exists a e, a <> 1 /\
          evs = [Ev (PQputCopyEnd c NULL) a; Ev (PQerrorMessage c) e] /\
          r = Throw (QueryError "Failed to finish COPY" e)) \/
       (exists res2 s2 e, s2 <> PGRES_COMMAND_OK /\
          evs = [Ev (PQputCopyEnd c NULL) 1; Ev (PQgetResult c) res2;
                 Ev (PQresultStatus res2) s2; Ev (PQclear res2) tt;
                 Ev (PQerrorMessage c) e] /\
          r = Throw (QueryError "COPY returned error" e)) \/
       (exists res2,
          evs = [Ev (PQputCopyEnd c NULL) 1; Ev (PQgetResult c) res2;
                 Ev (PQresultStatus res2) PGRES_COMMAND_OK;
                 Ev (PQclear res2) tt] /\
          r = Ok tt)))).
Proof.
  intros df c r st'.
  assert (Hdf : df <> []) by discriminate.
  destruct (copy_data_run sql df st Hdf)
    as (T & N & res & s & evs & E1 & E2 & Tr & Sh).
  fold c r st' in T, N, Tr, Sh.
  exists res, s, evs. split; [exact Tr|].
  split; [now apply copy_data_replays|].
  destruct Sh as [(C & e & -> & R) | (C & R)].
  - split; [reflexivity|]. left. split; [exact C|]. now exists e.
  - cbn in R. revert R. generalize r. intros r0 R.
    destruct R as [k a e K A | a e A | res2 s2 e S2 | res2]; cbn [rows_sent app].
    + lia.
    + split; [reflexivity|]. right. split; [exact C|]. left.
      exists a, e. now repeat split.
    + split; [reflexivity|]. right. split; [exact C|]. right; left.
      exists res2, s2, e. now repeat split.
    + split; [reflexivity|]. right. split; [exact C|]. right; right.
      exists res2. now split.
Qed.

End Copy.

(** [disconnect()] twice on a healthy session. *)
Lemma disconnect_idempotent_witness :
  let st1 := snd (disconnect (Sim.connected None Sim.healthy)) in
  let st2 := snd (disconnect st1) in
  extern (PQfinish NULL) (world st1) = (tt, world st1) /\
  fst (disconnect st1) = Ok tt /\
  pConn_ (this st1) = NULL /\ this st2 = this st1 /\ world st2 = world st1.
Proof.
  intros st1 st2.
  destruct (disconnect_idempotent (Sim.connected None Sim.healthy))
    as (_ & R2 & P & _ & _ & _ & _ & T2 & _ & _ & Wd).
  split; [reflexivity|]. split; [exact R2|]. split; [exact P|].
  split; [exact T2|]. apply Wd. reflexivity.
Defined.

(** A table without columns. *)
Lemma copy_data_zero_columns_witness :
  copy_data Sim.encode "COPY t FROM STDIN" []
            (Sim.connected None Sim.healthy) =
  (Ok tt, Sim.connected None Sim.healthy).
Proof.
  apply (copy_data_zero_columns Sim.encode "COPY t FROM STDIN" []
           (Sim.connected None Sim.healthy)).
  reflexivity.
Defined.

(** A statement that is not a COPY. *)
Lemma copy_data_not_initialised_witness :
  exists (e : string) (evs : list Event),
    fst (copy_data Sim.encode "SELECT 1" [[1; 2]]
           (Sim.connected None Sim.not_a_copy)) =
      Throw (QueryError "Failed to initialise COPY" e) /\
    evs = [Ev (PQexec (Some 1%nat) "SELECT 1") (Some 10%nat);
           Ev (PQresultStatus (Some 10%nat)) PGRES_TUPLES_OK;
           Ev (PQclear (Some 10%nat)) tt;
           Ev (PQerrorMessage (Some 1%nat)) e] /\
    trace (snd (copy_data Sim.encode "SELECT 1" [[1; 2]]
                  (Sim.connected None Sim.not_a_copy))) = [] ++ evs /\
    Replays Sim.not_a_copy evs
      (world (snd (copy_data Sim.encode "SELECT 1" [[1; 2]]
                     (Sim.connected None Sim.not_a_copy)))) /\
    count is_PQputCopyData evs = 0%nat /\
    this (snd (copy_data Sim.encode "SELECT 1" [[1; 2]]
                 (Sim.connected None Sim.not_a_copy))) =
    this (Sim.connected None Sim.not_a_copy).
Proof.
  apply (copy_data_not_initialised Sim.encode "SELECT 1" [[1; 2]]
           (Sim.connected None Sim.not_a_copy) (Some 10%nat)
           PGRES_TUPLES_OK).
  - discriminate.
  - reflexivity.
  - reflexivity.
  - discriminate.
Defined.

(** Two columns of three rows, copied to a healthy backend. *)
Lemma copy_data_rows_witness :
  exists evs : list Event,
    trace (snd (copy_data Sim.encode "COPY t FROM STDIN" [[5; 6; 7]; [8; 9; 10]]
                  (Sim.connected None Sim.healthy))) =
      [] ++
      [Ev (PQexec (Some 1%nat) "COPY t FROM STDIN") (Some 10%nat);
       Ev (PQresultStatus (Some 10%nat)) PGRES_COPY_IN;
       Ev (PQclear (Some 10%nat)) tt] ++ evs /\
    Replays Sim.healthy
      ([Ev (PQexec (Some 1%nat) "COPY t FROM STDIN") (Some 10%nat);
        Ev (PQresultStatus (Some 10%nat)) PGRES_COPY_IN;
        Ev (PQclear (Some 10%nat)) tt] ++ evs)
      (world (snd (copy_data Sim.encode "COPY t FROM STDIN"
                     [[5; 6; 7]; [8; 9; 10]]
                     (Sim.connected None Sim.healthy)))) /\
    CopyIn Sim.encode (Some 1%nat) [[5; 6; 7]; [8; 9; 10]] 3 evs
      (fst (copy_data Sim.encode "COPY t FROM STDIN" [[5; 6; 7]; [8; 9; 10]]
              (Sim.connected None Sim.healthy))) /\
    (count is_PQputCopyData evs <= 3)%nat /\
    (fst (copy_data Sim.encode "COPY t FROM STDIN" [[5; 6; 7]; [8; 9; 10]]
            (Sim.connected None Sim.healthy)) = Ok tt ->
     count is_PQputCopyData evs = 3%nat) /\
    this (snd (copy_data Sim.encode "COPY t FROM STDIN"
                 [[5; 6; 7]; [8; 9; 10]]
                 (Sim.connected None Sim.healthy))) =
    this (Sim.connected None Sim.healthy).
Proof.
  apply (copy_data_rows Sim.encode "COPY t FROM STDIN"
           [[5; 6; 7]; [8; 9; 10]] (Sim.connected None Sim.healthy)
           (Some 10%nat)).
  - discriminate.
  - reflexivity.
  - reflexivity.
Defined.

(** ** Cancelling and cleaning up *)

(** Walk through a method: answer each call, split each test. *)
Ltac crunch :=
  repeat (cbn;
          first
            [ ask
            | match goal with
              | |- context [if ?b then _ else _] => destruct b eqn:?
              end ]).

Lemma liveness_calls_quiet (evs : list Event) :
  forallb is_liveness_call evs = true ->
  warnings evs = [] /\ failed_cancels evs = [] /\
  count is_PQescapeLiteral evs = 0%nat /\
  count is_PQescapeIdentifier evs = 0%nat /\
  count is_Rf_mkCharCE evs = 0%nat.
Proof.
  induction evs as [|[R c r] evs IH]; [now repeat split|].
  cbn [forallb]. intro H. apply andb_prop in H. destruct H as [H1 H2].
  specialize (IH H2). destruct IH as (I1 & I2 & I3 & I4 & I5).
  unfold count in *.
  destruct c; cbn in H1; try discriminate H1; cbn; now repeat split.
Qed.

Lemma drain_calls_quiet (evs : list Event) :
  forallb is_drain_call evs = true ->
  warnings evs = [] /\ failed_cancels evs = [].
Proof.
  induction evs as [|[R c r] evs IH]; [now repeat split|].
  cbn [forallb]. intro H. apply andb_prop in H. destruct H as [H1 H2].
  specialize (IH H2). destruct IH as (I1 & I2).
  destruct c; cbn in H1; try discriminate H1; cbn; now repeat split.
Qed.

Section Cleanup.
Context {W : Type} {X : Extern W}.

Lemma check_connection_frame (st : State W) :
  let r := fst (check_connection st) in
  let st' := snd (check_connection st) in
  this st' = this st /\ null st' = null st /\
  (r = Ok tt \/ exists e, r = Throw e) /\
  (pConn_ (this st) = NULL ->
   r = Throw (ConnectionError "Disconnected") /\ st' = st) /\
  exists evs,
    trace st' = trace st ++ evs /\ forallb is_liveness_call evs = true.
Proof.
  destruct st as [[pc cur tr ci] nl w t].
  unfold_methods. cbn. destruct pc as [h|]; crunch;
    (split; [reflexivity|]); (split; [reflexivity|]);
    (split; [solve [left; reflexivity | right; eexists; reflexivity]|]);
    (split; [first [discriminate | intros _; split; reflexivity]|]);
    eexists; (split; [rewrite <- ?app_assoc; try reflexivity;
                      symmetry; apply app_nil_r
                     | reflexivity]).
Qed.

Lemma finish_query_frame (fuel : nat) (c : PGconn_p) (st : State W) :
  let r := fst (finish_query fuel c st) in
  let st' := snd (finish_query fuel c st) in
  this st' = this st /\ null st' = null st /\
  (r = Ok tt \/ r = OutOfFuel) /\
  exists evs,
    trace st' = trace st ++ evs /\ forallb is_drain_call evs = true.
Proof.
  revert st. induction fuel as [|fuel IH]; intro st.
  - cbn. repeat split; [now right|]. exists []. now rewrite app_nil_r.
  - destruct st as [o nl w t]. cbn [finish_query]. unfold_methods. cbn. ask.
    destruct (ptr_eqb a None) eqn:P; cbn.
    + repeat split; [now left|]. eexists. split; reflexivity.
    + ask.
      match goal with
      | |- context [finish_query _ _ ?s] => specialize (IH s)
      end.
      cbn in IH. destruct IH as (T & N & R & evs & Tr & F).
      repeat split; try assumption.
      eexists. split; [rewrite Tr, <- !app_assoc; reflexivity|].
      cbn. exact F.
Qed.

Lemma finish_query_enough (n fuel : nat) (c : PGconn_p) (st : State W) :
  drains n c (world st) = true -> (n < fuel)%nat ->
  fst (finish_query fuel c st) = Ok tt.
Proof.
  revert fuel st. induction n as [|n IH]; intros fuel st D L;
    (destruct fuel as [|fuel]; [lia|]);
    destruct st as [o nl w t]; cbn [finish_query]; unfold_methods;
    cbn in *; destruct (extern (PQgetResult c) w) as [[r|] w1] eqn:E;
    cbn in *; try reflexivity; try discriminate D.
  destruct (extern (PQclear (Some r)) w1) as [[] w2] eqn:E2. cbn in *.
  apply IH; [exact D | lia].
Qed.

Lemma cancel_query_frame (st : State W) :
  let r := fst (cancel_query st) in
  let st' := snd (cancel_query st) in
  this st' = this st /\ null st' = null st /\
  (r = Ok tt \/ exists e, r = Throw e) /\
  (pConn_ (this st) = NULL -> r = Throw (ConnectionError "Disconnected")) /\
  exists evs,
    trace st' = trace st ++ evs /\
    warnings evs = failed_cancels evs /\
    (List.length (failed_cancels evs) <= 1)%nat.
Proof.
  destruct st as [[pc cur tr ci] nl w t].
  unfold cancel_query. unfold_methods. cbn. destruct pc as [h|]; crunch;
    (split; [reflexivity|]); (split; [reflexivity|]);
    (split; [solve [left; reflexivity | right; eexists; reflexivity]|]);
    (split; [first [discriminate | intros _; reflexivity]|]);
    eexists; (split; [rewrite <- ?app_assoc; try reflexivity;
                      symmetry; apply app_nil_r|]);
    cbn;
    repeat match goal with
           | H : (fst _ =? 0) = _ |- _ => rewrite H
           end;
    cbn; (split; [reflexivity | lia]).
Qed.

Lemma cancel_unless_complete_frame (st : State W) :
  let r := fst (cancel_unless_complete st) in
  let st' := snd (cancel_unless_complete st) in
  this st' = this st /\ null st' = null st /\
  (r = Ok tt \/ exists e, r = Throw e) /\
  exists evs,
    trace st' = trace st ++ evs /\
    warnings evs = failed_cancels evs /\
    (List.length (failed_cancels evs) <= 1)%nat.
Proof.
  destruct st as [[pc [a|] tr ci] nl w t];
    unfold cancel_unless_complete, bind, get_this, call, ret;
    cbn -[cancel_query].
  - destruct (extern (DbResult_complete a) w) as [[|] w1] eqn:E;
      cbn -[cancel_query].
    + repeat split; [now left|]. eexists. split; [reflexivity|].
      cbn. split; [reflexivity | lia].
    + match goal with
      | |- context [cancel_query ?s] =>
          pose proof (cancel_query_frame s) as F;
          destruct (cancel_query s) as [r1 st1]
      end.
      cbn in F. destruct F as (T & N & R & _ & evs & Tr & Wn & Ln).
      cbn. repeat split; try assumption.
      eexists. split; [rewrite Tr, <- app_assoc; reflexivity|].
      cbn. split; assumption.
  - repeat split; [now left|]. exists []. rewrite app_nil_r.
    cbn. repeat split. lia.
Qed.

Lemma cleanup_query_split (fuel : nat) (st : State W) :
  cleanup_query fuel st =
  match cancel_unless_complete st with
  | (Ok _, st1) => finish_query fuel (pConn_ (this st1)) st1
  | (Throw e, st1) => (Throw e, st1)
  | (OutOfFuel, st1) => (OutOfFuel, st1)
  end.
Proof.
  unfold cleanup_query, cancel_unless_complete, bind, get_this.
  destruct (pCurrentResult_ (this st)) as [a|]; [|reflexivity].
  destruct (call (DbResult_complete a) st) as [[c|e|] st0]; reflexivity.
Qed.

(** What [cleanup_query] does, by the outcome of its cancel step. *)
Lemma cleanup_query_run (fuel : nat) (st : State W) :
  (forall e st1, cancel_unless_complete st = (Throw e, st1) ->
     cleanup_query fuel st = (Throw e, st1) /\ this st1 = this st) /\
  (forall n st1, cancel_unless_complete st = (Ok tt, st1) ->
     drains n (pConn_ (this st)) (world st1) = true -> (n < fuel)%nat ->
     exists stc evs,
       cleanup_query fuel st = (Ok tt, stc) /\
       this stc = this st /\ null stc = null st /\
       trace stc = trace st ++ evs /\
       warnings evs = failed_cancels evs /\
       (List.length (failed_cancels evs) <= 1)%nat).
Proof.
  pose proof (cancel_unless_complete_frame st) as F. cbv zeta in F.
  destruct F as (T & N & R & evs & Tr & Wn & Ln).
  split.
  - intros e st1 C. rewrite cleanup_query_split, C.
    rewrite C in T. now split.
  - intros n st1 C D L. rewrite cleanup_query_split, C.
    rewrite C in T, N, Tr. cbn in T, N, Tr. rewrite T.
    pose proof (finish_query_enough n fuel (pConn_ (this st)) st1 D L) as Q.
    pose proof (finish_query_frame fuel (pConn_ (this st)) st1) as G.
    cbn in G. destruct G as (T2 & N2 & _ & evs2 & Tr2 & Dr).
    destruct (finish_query fuel (pConn_ (this st)) st1) as [r2 stc].
    cbn in *. subst r2. exists stc, (evs ++ evs2).
    destruct (drain_calls_quiet evs2 Dr) as (Q1 & Q2).
    repeat split.
    + congruence.
    + congruence.
    + rewrite Tr2, Tr. symmetry. apply app_assoc.
    + rewrite warnings_app, failed_cancels_app, Q1, Q2, Wn. reflexivity.
    + rewrite failed_cancels_app, Q2, app_nil_r. exact Ln.
Qed.

(** C6, as amended.  With a pointer other than the tracked one
    [reset_current_result] returns at once and the whole state is
    unchanged.  With the tracked pointer it runs [cleanup_query]: when the
    cancel step of the cleanup raises, the error is passed on and the
    tracked pointer stays as it was; when the cancel step returns and the
    connection hands out at most [n] more results, any [fuel > n] rounds
    suffice, the call returns, the tracked pointer is null and
    [has_query()] answers false.  [has_query()] also answers false on the
    object the constructor has initialised. *)
Theorem reset_current_result_spec (fuel : nat) (pResult : DbResult_p)
        (st : State W) :
  (pResult <> pCurrentResult_ (this st) ->
   reset_current_result fuel pResult st = (Ok tt, st)) /\
  (pResult = pCurrentResult_ (this st) ->
   forall e st1, cancel_unless_complete st = (Throw e, st1) ->
     reset_current_result fuel pResult st = (Throw e, st1) /\
     this st1 = this st /\
     fst (has_query st1) = fst (has_query st)) /\
  (pResult = pCurrentResult_ (this st) ->
   forall n st1, cancel_unless_complete st = (Ok tt, st1) ->
     drains n (pConn_ (this st)) (world st1) = true -> (n < fuel)%nat ->
     exists stc st',
       cleanup_query fuel st = (Ok tt, stc) /\
       reset_current_result fuel pResult st = (Ok tt, st') /\
       this st' =
         mkDbConnection (pConn_ (this st)) NULL (transacting_ (this st))
                        (check_interrupts_ (this st)) /\
       null st' = null st /\ world st' = world stc /\
       trace st' = trace stc /\
       has_query st' = (Ok false, st')) /\
  (forall keys values check_interrupts,
     let st_new := snd (DbConnection_new keys values check_interrupts st) in
     has_query st_new = (Ok false, st_new)).
Proof.
  split; [|split; [|split]].
  - intro Hne. apply ptr_eqb_neq in Hne.
    unfold reset_current_result, bind, get_this. now rewrite Hne.
  - intros He e st1 C. destruct (cleanup_query_run fuel st) as [Ht _].
    destruct (Ht e st1 C) as [Q T].
    unfold reset_current_result, bind, get_this.
    rewrite He, ptr_eqb_refl. cbn [negb]. rewrite Q.
    repeat split; [exact T|]. unfold has_query, bind, get_this, ret.
    cbn. now rewrite T.
  - intros He n st1 C D L. destruct (cleanup_query_run fuel st) as [_ Hok].
    destruct (Hok n st1 C D L) as (stc & evs & Q & T & N & Tr & _).
    exists stc, (snd (assign_pCurrentResult_ NULL stc)).
    split; [exact Q|].
    unfold reset_current_result, bind, get_this.
    rewrite He, ptr_eqb_refl. cbn [negb]. rewrite Q.
    destruct stc as [o nlc wc tc]. cbn in *. subst o nlc.
    repeat split.
  - intros keys values ci st_new. subst st_new.
    destruct st as [[pc cur tr c0] nl w t].
    unfold DbConnection_new, has_query. unfold_methods. crunch; reflexivity.
Qed.

Lemma bind_Ok_inv A B (m : M W A) (f : A -> M W B) st b st' :
  bind m f st = (Ok b, st') ->
  exists a st1, m st = (Ok a, st1) /\ f a st1 = (Ok b, st').
Proof.
  unfold bind. destruct (m st) as [[a|e|] st1]; intro H;
    try discriminate H. now exists a, st1.
Qed.

Lemma set_current_result_tracks (fuel : nat) (A : DbResult_p)
      (st st1 : State W) :
  set_current_result fuel A st = (Ok tt, st1) ->
  pCurrentResult_ (this st1) = A.
Proof.
  unfold set_current_result. intro H.
  apply bind_Ok_inv in H. destruct H as (o & s0 & G & H).
  unfold get_this in G. injection G as <- <-.
  destruct (ptr_eqb A (pCurrentResult_ (this st))) eqn:P.
  - apply ptr_eqb_eq in P. unfold ret in H. injection H as <-. now symmetry.
  - apply bind_Ok_inv in H. destruct H as (u & s2 & _ & H).
    unfold assign_pCurrentResult_, bind, get_this, put_this in H.
    injection H as <-. reflexivity.
Qed.

(** C1, as amended.  A candidate that is the tracked result changes
    nothing, so [set_current_result(A)] twice in a row makes no call the
    second time.  With nothing tracked the candidate is recorded and
    nothing is called.  With result [a] tracked and another candidate, the
    warning "Closing open result set, cancelling previous query" comes
    first when the candidate is not null, and [cleanup_query] follows in
    both cases.  When the cancel step of the cleanup raises, the error is
    passed on and [a] stays tracked.  When it returns and the connection
    hands out at most [n] more results, [fuel > n] rounds suffice, the
    call returns and the candidate is tracked; the only warning the
    cleanup can add is the error buffer of a cancel request that
    failed. *)
Theorem set_current_result_spec (fuel : nat) (st : State W) :
  set_current_result fuel (pCurrentResult_ (this st)) st = (Ok tt, st) /\
  (forall A st1,
     set_current_result fuel A st = (Ok tt, st1) ->
     pCurrentResult_ (this st1) = A /\
     set_current_result fuel A st1 = (Ok tt, st1)) /\
  (pCurrentResult_ (this st) = NULL ->
   forall pResult,
     set_current_result fuel pResult st =
     (Ok tt,
      mkState (mkDbConnection (pConn_ (this st)) pResult
                 (transacting_ (this st)) (check_interrupts_ (this st)))
              (null st) (world st) (trace st))) /\
  (forall a pResult,
     pCurrentResult_ (this st) = Some a -> pResult <> Some a ->
     let closing :=
       "Closing open result set, cancelling previous query"%string in
     let st_w :=
       match pResult with
       | Some _ => snd (warning closing st)
       | None => st
       end in
     trace st_w =
       trace st ++
       match pResult with
       | Some _ => [Ev (Rf_warning closing) tt]
       | None => []
       end /\
     this st_w = this st /\
     (forall e st1,
        cancel_unless_complete st_w = (Throw e, st1) ->
        set_current_result fuel pResult st = (Throw e, st1) /\
        pCurrentResult_ (this st1) = Some a) /\
     (forall n st1,
        cancel_unless_complete st_w = (Ok tt, st1) ->
        drains n (pConn_ (this st)) (world st1) = true -> (n < fuel)%nat ->
        exists stc evs,
          cleanup_query fuel st_w = (Ok tt, stc) /\
          set_current_result fuel pResult st =
          (Ok tt,
           mkState (mkDbConnection (pConn_ (this st)) pResult
                      (transacting_ (this st)) (check_interrupts_ (this st)))
                   (null st) (world stc) (trace stc)) /\
          trace stc = trace st_w ++ evs /\
          warnings evs = failed_cancels evs /\
          (List.length (failed_cancels evs) <= 1)%nat)).
Proof.
  split; [|split; [|split]].
  - unfold set_current_result, bind, get_this. now rewrite ptr_eqb_refl.
  - intros A st1 H. pose proof (set_current_result_tracks _ _ _ _ H) as T.
    split; [exact T|].
    unfold set_current_result, bind, get_this. rewrite T.
    now rewrite ptr_eqb_refl.
  - intros Hn pResult. destruct st as [[pc cur tr ci] nl w t].
    cbn in Hn. subst cur.
    unfold set_current_result. unfold_methods. cbn.
    destruct pResult as [b|]; reflexivity.
  - intros a pResult Ha Hne closing st_w.
    assert (Hw : this st_w = this st /\ null st_w = null st).
    { subst st_w. destruct pResult; [|now split].
      unfold warning, call. destruct (extern _ _). now split. }
    destruct Hw as [Hw Hw'].
    split; [|split; [exact Hw|]].
    { subst st_w. destruct pResult; [|now rewrite app_nil_r].
      unfold warning, call. now destruct (extern _ _) as [[] w1]. }
    assert (Hs : set_current_result fuel pResult st =
                 match cleanup_query fuel st_w with
                 | (Ok _, s) => assign_pCurrentResult_ pResult s
                 | (Throw e, s) => (Throw e, s)
                 | (OutOfFuel, s) => (OutOfFuel, s)
                 end).
    { apply ptr_eqb_neq in Hne. subst st_w.
      unfold set_current_result, bind, get_this. rewrite Ha, Hne. cbn.
      destruct pResult as [b|]; cbn; [|reflexivity].
      unfold warning, call. now destruct (extern _ _) as [[] w1]. }
    destruct (cleanup_query_run fuel st_w) as [Ht Hok]. split.
    + intros e st1 C. destruct (Ht e st1 C) as [Q T].
      rewrite Hs, Q. split; [reflexivity|]. now rewrite T, Hw.
    + intros n st1 C D L. rewrite <- Hw in D.
      destruct (Hok n st1 C D L) as (stc & evs & Q & T & N & Tr & Wn & Ln).
      exists stc, evs. split; [exact Q|].
      rewrite Hs, Q. unfold assign_pCurrentResult_, bind, get_this, put_this.
      rewrite T, N, Hw, Hw'. now repeat split.
Qed.

End Cleanup.

(** ** Quoting *)

Section Quoting.
Context {W : Type} {X : Extern W}.

Lemma quote_identifier_after_check (x : String) (st : State W) :
  quote_identifier x st =
  match check_connection st with
  | (Ok _, st0) =>
      (o <- get_this ;;
       pq_escaped <- call (PQescapeIdentifier (pConn_ o) (get_cstring x)
                             (static_cast_size_t (-1))) ;;
       escaped <- call (Rf_mkCharCE pq_escaped CE_UTF8) ;;
       call (PQfreemem pq_escaped) ;;
       ret escaped) st0
  | (Throw e, st0) => (Throw e, st0)
  | (OutOfFuel, st0) => (OutOfFuel, st0)
  end.
Proof. reflexivity. Qed.

Lemma quote_string_after_check (x : String) (st : State W) :
  quote_string x st =
  match check_connection st with
  | (Ok _, st0) =>
      (if is_NA_STRING x then get_null_string
       else
         o <- get_this ;;
         pq_escaped <- call (PQescapeLiteral (pConn_ o) (get_cstring x)
                               (static_cast_size_t (-1))) ;;
         escaped <- call (Rf_mkCharCE pq_escaped CE_UTF8) ;;
         call (PQfreemem pq_escaped) ;;
         ret escaped) st0
  | (Throw e, st0) => (Throw e, st0)
  | (OutOfFuel, st0) => (OutOfFuel, st0)
  end.
Proof. reflexivity. Qed.

(** C4, as amended.  [quote_identifier] runs [check_connection] first,
    as [quote_string] does.  The calls of the check come first; when the
    check raises, both methods pass the error on and nothing is escaped
    (without a native handle the error is "Disconnected" and nothing is
    called at all); when the check returns, [quote_identifier] escapes
    with [PQescapeIdentifier], copies the result into an R string and
    frees the native buffer. *)
Theorem quote_identifier_checks_connection (x : String) (st : State W) :
  let rc := fst (check_connection st) in
  let st0 := snd (check_connection st) in
  (exists evs0,
     trace st0 = trace st ++ evs0 /\
     forallb is_liveness_call evs0 = true /\
     count is_PQescapeIdentifier evs0 = 0%nat) /\
  (forall e, rc = Throw e ->
     quote_identifier x st = (Throw e, st0) /\
     quote_string x st = (Throw e, st0)) /\
  (pConn_ (this st) = NULL ->
   quote_identifier x st = (Throw (ConnectionError "Disconnected"), st)) /\
  (rc = Ok tt ->
   exists p v st',
     quote_identifier x st = (Ok v, st') /\
     trace st' =
       trace st0 ++
       [Ev (PQescapeIdentifier (pConn_ (this st)) (get_cstring x)
              (2 ^ 64 - 1)) p;
        Ev (Rf_mkCharCE p CE_UTF8) v;
        Ev (PQfreemem p) tt] /\
     this st' = this st /\ null st' = null st).
Proof.
  intros rc st0. subst rc st0.
  pose proof (check_connection_frame st) as F. cbv zeta in F.
  destruct F as (T & N & R & D & evs0 & Tr & L).
  rewrite quote_identifier_after_check, quote_string_after_check.
  destruct (check_connection st) as [rc st0]. cbn [fst snd] in *.
  split; [|split; [|split]].
  - exists evs0. split; [exact Tr|]. split; [exact L|].
    now apply liveness_calls_quiet.
  - intros e ->. now split.
  - intro Hn. destruct (D Hn) as [-> ->]. reflexivity.
  - intros ->. destruct st0 as [o nl w t]. cbn in T, N. subst o nl.
    unfold_methods. cbn. ask. ask. ask.
    exists a, a0. eexists. split; [reflexivity|]. cbn.
    rewrite <- !app_assoc. now repeat split.
Qed.

(** C7.  Once the connection check has passed, [quote_string] on
    [NA_STRING] returns the object kept in the static [null] and leaves it
    there: the first use creates it with [Rf_mkCharCE("NULL", CE_UTF8)],
    every later use returns the same object and calls nothing.
    [PQescapeLiteral] is not called.  [get_null_string] never replaces an
    object it has stored.  On characters, [quote_string] calls
    [PQescapeLiteral] on them, copies the result into an R string with
    [Rf_mkCharCE] and frees the native buffer with [PQfreemem] before it
    returns the R string. *)
Theorem quote_string_spec (st st0 : State W) :
  check_connection st = (Ok tt, st0) ->
  (exists v st' evs,
     quote_string NA_STRING st = (Ok v, st') /\
     null st' = Some v /\ this st' = this st /\
     trace st' = trace st ++ evs /\
     count is_PQescapeLiteral evs = 0%nat /\
     match null st with
     | Some v0 => v = v0 /\ st' = st0
     | None =>
         trace st' =
           trace st0 ++ [Ev (Rf_mkCharCE (Some "NULL"%string) CE_UTF8) v]
     end) /\
  (forall v0 (s : State W),
     null s = Some v0 -> get_null_string s = (Ok v0, s)) /\
  (forall chars, exists p v st',
     quote_string (Chars chars) st = (Ok v, st') /\
     trace st' =
       trace st0 ++
       [Ev (PQescapeLiteral (pConn_ (this st)) chars (2 ^ 64 - 1)) p;
        Ev (Rf_mkCharCE p CE_UTF8) v;
        Ev (PQfreemem p) tt] /\
     this st' = this st /\ null st' = null st).
Proof.
  intro C.
  pose proof (check_connection_frame st) as F. cbv zeta in F.
  destruct F as (T & N & _ & _ & evs0 & Tr & L).
  rewrite C in T, N, Tr. cbn [fst snd] in T, N, Tr.
  destruct (liveness_calls_quiet evs0 L) as (_ & _ & Q & _ & _).
  split; [|split].
  - rewrite quote_string_after_check, C. cbn [is_NA_STRING].
    destruct st0 as [o nl w t]. cbn in T, N, Tr. subst o nl.
    unfold get_null_string. unfold_methods. cbn.
    destruct (null st) as [v0|] eqn:Hn; cbn.
    + exists v0. eexists. exists evs0. repeat split; assumption.
    + ask. exists a. eexists. eexists. split; [reflexivity|]. cbn.
      repeat split.
      * rewrite Tr, <- app_assoc. reflexivity.
      * rewrite count_app, Q. reflexivity.
  - intros v0 s Hs. unfold get_null_string. unfold_methods.
    now rewrite Hs.
  - intro chars. rewrite quote_string_after_check, C. cbn [is_NA_STRING].
    destruct st0 as [o nl w t]. cbn in T, N. subst o nl.
    unfold_methods. cbn. ask. ask. ask.
    exists a, a0. eexists. split; [reflexivity|]. cbn.
    rewrite <- !app_assoc. now repeat split.
Qed.

End Quoting.

(** ** Concrete runs on the simulated backend *)

(** C1, as stated, fails.  First run: result 1 is tracked and not
    complete, the backend refuses the cancel request; the second
    [set_current_result] returns and tracks result 2, but it has emitted
    two warnings, not one.  Second run: the object has been disconnected;
    the cleanup raises "Disconnected" and result 1, not result 2, is
    tracked afterwards.  Third run: the candidate is null, result 1 is
    tracked and the backend refuses the cancel request; a warning is
    emitted.  And the text of the warning starts with a capital letter. *)
Lemma set_current_result_counterexample :
  let A : DbResult_p := Some 1%nat in
  let B : DbResult_p := Some 2%nat in
  let closing := "Closing open result set, cancelling previous query"%string in
  (let st1 :=
     snd (set_current_result 3 A (Sim.connected None Sim.cancel_refused)) in
   let run := set_current_result 3 B st1 in
   pCurrentResult_ (this st1) = A /\ trace st1 = [] /\
   fst run = Ok tt /\
   warnings (trace (snd run)) =
     [closing; "PQcancel() -- connect() failed: "%string] /\
   List.length (warnings (trace (snd run))) <> 1%nat) /\
  (let st1 :=
     snd (set_current_result 3 A (Sim.disconnected None Sim.healthy)) in
   let run := set_current_result 3 B st1 in
   pCurrentResult_ (this st1) = A /\
   fst run = Throw (ConnectionError "Disconnected") /\
   pCurrentResult_ (this (snd run)) = A /\
   pCurrentResult_ (this (snd run)) <> B) /\
  (let run :=
     set_current_result 3 NULL (Sim.connected A Sim.cancel_refused) in
   fst run = Ok tt /\
   pCurrentResult_ (this (snd run)) = NULL /\
   warnings (trace (snd run)) = ["PQcancel() -- connect() failed: "%string]) /\
  closing <> "closing open result set, cancelling previous query"%string.
Proof.
  vm_compute. repeat split; intro H; discriminate H.
Qed.

(** Result 1 is tracked and not complete.  On a healthy session where one
    result waits to be fetched two rounds are enough and result 2 is
    tracked afterwards; on a disconnected object the error of the cancel
    step is passed on and result 1 stays tracked. *)
Lemma set_current_result_spec_witness :
  let closing := "Closing open result set, cancelling previous query"%string in
  (let st := Sim.connected (Some 1%nat) Sim.healthy in
   let st_w := snd (warning closing st) in
   exists stc evs,
     cleanup_query 2 st_w = (Ok tt, stc) /\
     set_current_result 2 (Some 2%nat) st =
     (Ok tt,
      mkState (mkDbConnection (Some 1%nat) (Some 2%nat) false false)
              None (world stc) (trace stc)) /\
     trace stc = trace st_w ++ evs /\
     warnings evs = failed_cancels evs /\
     (List.length (failed_cancels evs) <= 1)%nat) /\
  (let st := Sim.disconnected (Some 1%nat) Sim.healthy in
   let st_w := snd (warning closing st) in
   set_current_result 2 (Some 2%nat) st =
   (Throw (ConnectionError "Disconnected"),
    snd (cancel_unless_complete st_w)) /\
   pCurrentResult_ (this (snd (cancel_unless_complete st_w))) = Some 1%nat).
Proof.
  intros closing. split.
  - intros st st_w.
    destruct (set_current_result_spec 2%nat st) as (_ & _ & _ & H).
    destruct (H 1%nat (Some 2%nat) eq_refl ltac:(discriminate))
      as (_ & _ & _ & Hok).
    apply (Hok 1%nat (snd (cancel_unless_complete st_w))).
    + reflexivity.
    + reflexivity.
    + lia.
  - intros st st_w.
    destruct (set_current_result_spec 2%nat st) as (_ & _ & _ & H).
    destruct (H 1%nat (Some 2%nat) eq_refl ltac:(discriminate))
      as (_ & _ & Hthrow & _).
    apply (Hthrow (ConnectionError "Disconnected")
             (snd (cancel_unless_complete st_w))).
    reflexivity.
Defined.

(** C6, as stated, fails.  Result 1 is tracked and not complete.  After
    [disconnect()], or when the session is lost and a reset does not bring
    it back, the cleanup inside [reset_current_result] raises; the tracked
    pointer is not cleared and [has_query()] still answers true. *)
Lemma reset_current_result_counterexample :
  (let st := Sim.disconnected (Some 1%nat) Sim.healthy in
   let run := reset_current_result 3 (Some 1%nat) st in
   pCurrentResult_ (this st) = Some 1%nat /\
   fst run = Throw (ConnectionError "Disconnected") /\
   pCurrentResult_ (this (snd run)) = Some 1%nat /\
   fst (has_query (snd run)) = Ok true) /\
  (let st := Sim.connected (Some 1%nat) Sim.lost in
   let run := reset_current_result 3 (Some 1%nat) st in
   pCurrentResult_ (this st) = Some 1%nat /\
   fst run =
     Throw (QueryError "Lost connection to database"
                       "server closed the connection") /\
   pCurrentResult_ (this (snd run)) = Some 1%nat /\
   fst (has_query (snd run)) = Ok true).
Proof.
  vm_compute. repeat split.
Qed.

(** Result 1 is tracked and announces that it is finished: on the healthy
    session the pointer is cleared, on the disconnected object the error
    is passed on; a pointer that is not tracked changes nothing. *)
Lemma reset_current_result_spec_witness :
  (let st := Sim.connected (Some 1%nat) Sim.healthy in
   exists stc st',
     cleanup_query 2 st = (Ok tt, stc) /\
     reset_current_result 2 (Some 1%nat) st = (Ok tt, st') /\
     this st' = mkDbConnection (Some 1%nat) None false false /\
     null st' = None /\ world st' = world stc /\
     trace st' = trace stc /\
     has_query st' = (Ok false, st')) /\
  (let st := Sim.disconnected (Some 1%nat) Sim.healthy in
   let st1 := snd (cancel_unless_complete st) in
   reset_current_result 2 (Some 1%nat) st =
     (Throw (ConnectionError "Disconnected"), st1) /\
   this st1 = this st /\
   fst (has_query st1) = fst (has_query st)) /\
  (let st := Sim.connected (Some 1%nat) Sim.healthy in
   reset_current_result 2 (Some 9%nat) st = (Ok tt, st)).
Proof.
  split; [|split].
  - intro st.
    destruct (reset_current_result_spec 2%nat (Some 1%nat) st)
      as (_ & _ & Hok & _).
    apply (Hok eq_refl 1%nat (snd (cancel_unless_complete st))).
    + reflexivity.
    + reflexivity.
    + lia.
  - intros st st1.
    destruct (reset_current_result_spec 2%nat (Some 1%nat) st)
      as (_ & Hthrow & _ & _).
    apply (Hthrow eq_refl (ConnectionError "Disconnected") st1).
    reflexivity.
  - intro st.
    destruct (reset_current_result_spec 2%nat (Some 9%nat) st)
      as (Hnoop & _ & _ & _).
    apply Hnoop. discriminate.
Defined.

(** C4, as stated, fails.  On a healthy session the first call of
    [quote_identifier] is the [PQstatus] of the connection check, and the
    escaping comes after it.  On a lost session the check resets once,
    fails and raises; nothing is escaped.  After [disconnect()] the check
    raises "Disconnected" and nothing is called. *)
Lemma quote_identifier_counterexample :
  (let run := quote_identifier (Chars "t") (Sim.connected None Sim.healthy) in
   fst run = Ok 100%nat /\
   trace (snd run) =
     [Ev (PQstatus (Some 1%nat)) CONNECTION_OK;
      Ev (PQescapeIdentifier (Some 1%nat) "t" (2 ^ 64 - 1)) (Some "[t]"%string);
      Ev (Rf_mkCharCE (Some "[t]"%string) CE_UTF8) 100%nat;
      Ev (PQfreemem (Some "[t]"%string)) tt]) /\
  (let run := quote_identifier (Chars "t") (Sim.connected None Sim.lost) in
   fst run =
     Throw (QueryError "Lost connection to database"
                       "server closed the connection") /\
   trace (snd run) =
     [Ev (PQstatus (Some 1%nat)) CONNECTION_BAD;
      Ev (PQreset (Some 1%nat)) tt;
      Ev (PQstatus (Some 1%nat)) CONNECTION_BAD;
      Ev (PQerrorMessage (Some 1%nat)) "server closed the connection"%string] /\
   count is_PQescapeIdentifier (trace (snd run)) = 0%nat) /\
  (let run := quote_identifier (Chars "t") (Sim.disconnected None Sim.healthy) in
   fst run = Throw (ConnectionError "Disconnected") /\
   trace (snd run) = []).
Proof.
  vm_compute. repeat split.
Qed.

(** On a lost session both quoting methods pass on the error of the
    connection check; on a healthy one [quote_identifier] escapes after
    the check; on a disconnected object it raises at once. *)
Lemma quote_identifier_checks_connection_witness :
  (let st := Sim.connected None Sim.lost in
   let e := QueryError "Lost connection to database"
                       "server closed the connection" in
   fst (check_connection st) = Throw e /\
   quote_identifier (Chars "t") st = (Throw e, snd (check_connection st)) /\
   quote_string (Chars "t") st = (Throw e, snd (check_connection st))) /\
  (let st := Sim.connected None Sim.healthy in
   fst (check_connection st) = Ok tt /\
   exists p v st',
     quote_identifier (Chars "t") st = (Ok v, st') /\
     trace st' =
       trace (snd (check_connection st)) ++
       [Ev (PQescapeIdentifier (Some 1%nat) "t" (2 ^ 64 - 1)) p;
        Ev (Rf_mkCharCE p CE_UTF8) v;
        Ev (PQfreemem p) tt] /\
     this st' = this st /\ null st' = null st) /\
  (let st := Sim.disconnected None Sim.healthy in
   quote_identifier (Chars "t") st =
     (Throw (ConnectionError "Disconnected"), st)).
Proof.
  split; [|split].
  - intros st e.
    destruct (quote_identifier_checks_connection (Chars "t") st)
      as (_ & H & _).
    split; [reflexivity|]. apply (H e). reflexivity.
  - intro st.
    destruct (quote_identifier_checks_connection (Chars "t") st)
      as (_ & _ & _ & H).
    split; [reflexivity|]. apply H. reflexivity.
  - intro st.
    destruct (quote_identifier_checks_connection (Chars "t") st)
      as (_ & _ & H & _).
    apply H. reflexivity.
Defined.

(** The first [quote_string(NA)] on a healthy session creates the token. *)
Lemma quote_string_spec_witness :
  let st := Sim.connected None Sim.healthy in
  check_connection st = (Ok tt, snd (check_connection st)) /\
  exists v st' evs,
    quote_string NA_STRING st = (Ok v, st') /\
    null st' = Some v /\ this st' = this st /\
    trace st' = trace st ++ evs /\
    count is_PQescapeLiteral evs = 0%nat /\
    trace st' =
      trace (snd (check_connection st)) ++
      [Ev (Rf_mkCharCE (Some "NULL"%string) CE_UTF8) v].
Proof.
  intro st. split; [reflexivity|].
  exact (proj1 (quote_string_spec st (snd (check_connection st)) eq_refl)).
Defined.

(** ** The rest of the class: construction, cancelling, draining *)

Lemma map_nth_seq_id A (l : list A) (d : A) :
  map (fun i => nth i l d) (seq 0 (List.length l)) = l.
Proof.
  induction l as [|a l IH]; [reflexivity|].
  cbn [List.length seq map nth]. f_equal.
  rewrite <- seq_shift, map_map. exact IH.
Qed.

Section Construction.
Context {W : Type} {X : Extern W}.

(** X1: with as many values as keys, the constructor hands
    [PQconnectdbParams] the keys in their order and the values in their
    order, each array closed by a null pointer, and [expand_dbname] false;
    this is its first call, and the handle it answers is the one the
    object keeps. *)
Theorem DbConnection_new_parameters (keys values : list string)
        (check_interrupts : bool) (st : State W) :
  List.length values = List.length keys ->
  exists (p : PGconn_p) (evs : list Event),
    trace (snd (DbConnection_new keys values check_interrupts st)) =
      trace st ++
      Ev (PQconnectdbParams (map Some keys ++ [NULL])
            (map Some values ++ [NULL]) false) p :: evs /\
    pConn_ (this (snd (DbConnection_new keys values check_interrupts st)))
    = p.
Proof.
  intro L. destruct st as [[pc cur tr c0] nl w t].
  unfold DbConnection_new. unfold_methods. cbv zeta.
  pose proof (map_nth_seq_id _ (map Some keys) None) as Hk.
  pose proof (map_nth_seq_id _ (map Some values) None) as Hv.
  rewrite length_map in Hk, Hv. rewrite L in Hv. rewrite Hk, Hv.
  cbn. ask. ask.
  destruct (ConnStatusType_eqb a0 CONNECTION_OK); cbn.
  - ask. exists a. eexists. split; [|reflexivity].
    rewrite <- !app_assoc. reflexivity.
  - ask. ask. exists a. eexists. split; [|reflexivity].
    rewrite <- !app_assoc. reflexivity.
Qed.

(** X2: the constructor makes three calls when the new session reports
    [CONNECTION_OK] (connect, status, client encoding "UTF-8") and returns
    an object that tracks no result and is not transacting.  On any other
    status it never sets the encoding: it reads the native error message,
    releases the handle with [PQfinish] and raises that message as it is,
    without a prefix. *)
Theorem DbConnection_new_outcome (keys values : list string)
        (check_interrupts : bool) (st : State W) :
  let r := fst (DbConnection_new keys values check_interrupts st) in
  let st' := snd (DbConnection_new keys values check_interrupts st) in
  exists (ck cv : list char_p) (p : PGconn_p) (s : ConnStatusType),
    pConn_ (this st') = p /\
    pCurrentResult_ (this st') = NULL /\
    transacting_ (this st') = false /\
    check_interrupts_ (this st') = check_interrupts /\
    null st' = null st /\
    ((s = CONNECTION_OK /\ r = Ok tt /\
      exists a,
        trace st' =
          trace st ++
          [Ev (PQconnectdbParams ck cv false) p; Ev (PQstatus p) s;
           Ev (PQsetClientEncoding p "UTF-8") a]) \/
     (s <> CONNECTION_OK /\
      exists err,
        r = Throw (Rcpp_exception err) /\
        trace st' =
          trace st ++
          [Ev (PQconnectdbParams ck cv false) p; Ev (PQstatus p) s;
           Ev (PQerrorMessage p) err; Ev (PQfinish p) tt])).
Proof.
  destruct st as [[pc cur tr c0] nl w t].
  unfold DbConnection_new. unfold_methods. cbn. ask. ask.
  destruct (ConnStatusType_eqb a0 CONNECTION_OK) eqn:S1; cbn.
  - apply ConnStatusType_eqb_eq in S1. subst a0. ask.
    do 2 eexists. exists a, CONNECTION_OK. repeat split.
    left. repeat split. exists a0. rewrite <- !app_assoc. reflexivity.
  - apply ConnStatusType_eqb_neq in S1. ask. ask.
    do 2 eexists. exists a, a0. repeat split.
    right. split; [exact S1|]. exists a1. split; [reflexivity|].
    rewrite <- !app_assoc. reflexivity.
Qed.

End Construction.

Section Cancel.
Context {W : Type} {X : Extern W}.

Lemma cancel_query_after_check (st : State W) :
  cancel_query st =
  match check_connection st with
  | (Ok _, st0) =>
      (o <- get_this ;;
       cancel <- call (PQgetCancel (pConn_ o)) ;;
       (if ptr_eqb cancel NULL
        then stop "Connection error detected via PQgetCancel()"
        else ret tt) ;;
       a <- call (PQcancel cancel 256) ;;
       (if fst a =? 0 then warning (snd a) else ret tt) ;;
       call (PQfreeCancel cancel)) st0
  | (Throw e, st0) => (Throw e, st0)
  | (OutOfFuel, st0) => (OutOfFuel, st0)
  end.
Proof. reflexivity. Qed.

(** X3: [cancel_query] passes on the error of the connection check and
    then asks for no cancel handle.  After a passed check it asks for one:
    a null handle raises "Connection error detected via PQgetCancel()" and
    no cancel request is sent; a handle is used for one [PQcancel] with a
    buffer of 256 bytes, a failed request is reported as a warning that
    carries the buffer, and in both cases the handle is freed and the call
    returns. *)
Theorem cancel_query_run (st : State W) :
  let rc := fst (check_connection st) in
  let st0 := snd (check_connection st) in
  let c := pConn_ (this st) in
  let r := fst (cancel_query st) in
  let st' := snd (cancel_query st) in
  (forall e, rc = Throw e -> r = Throw e /\ st' = st0) /\
  (rc = Ok tt ->
   this st' = this st /\ null st' = null st /\
   ((r = Throw
           (ConnectionError "Connection error detected via PQgetCancel()") /\
     trace st' = trace st0 ++ [Ev (PQgetCancel c) NULL]) \/
    (exists (h : nat) (code : Z) (errbuf : string),
       r = Ok tt /\
       trace st' =
         trace st0 ++
         [Ev (PQgetCancel c) (Some h);
          Ev (PQcancel (Some h) 256) (code, errbuf)] ++
         (if code =? 0 then [Ev (Rf_warning errbuf) tt] else []) ++
         [Ev (PQfreeCancel (Some h)) tt]))).
Proof.
  intros rc st0 c r st'. subst rc st0 c r st'.
  pose proof (check_connection_frame st) as F. cbv zeta in F.
  destruct F as (T & N & _ & _ & _).
  rewrite cancel_query_after_check.
  destruct (check_connection st) as [rc st0]. cbn [fst snd] in *.
  split.
  - intros e ->. now split.
  - intros ->. destruct st0 as [o nl w t]. cbn in T, N. subst o nl.
    unfold_methods. cbn. ask. destruct a as [h|]; cbn.
    + ask. destruct a as [code errbuf]. cbn.
      destruct (code =? 0) eqn:Z0; cbn.
      * ask. ask. repeat split. right. exists h, code, errbuf.
        split; [reflexivity|]. rewrite Z0, <- !app_assoc. reflexivity.
      * ask. repeat split. right. exists h, code, errbuf.
        split; [reflexivity|]. rewrite Z0, <- !app_assoc. reflexivity.
    + repeat split. left. now split.
Qed.

(** X4: when the connection has at most [n] results left, [finish_query]
    returns for every bound above [n], with the same outcome and state for
    all of them.  It fetches the results one after the other and clears
    each one before it asks for the next, stops at the first null answer,
    and changes nothing in the object. *)
Theorem finish_query_drains (n fuel : nat) (c : PGconn_p) (st : State W) :
  drains n c (world st) = true -> (n < fuel)%nat ->
  exists (rs : list nat) (st' : State W),
    (List.length rs <= n)%nat /\
    finish_query fuel c st = (Ok tt, st') /\
    trace st' = trace st ++ drain_events c rs /\
    this st' = this st /\ null st' = null st /\
    (forall fuel', (n < fuel')%nat ->
       finish_query fuel' c st = (Ok tt, st')).
Proof.
  revert fuel st. induction n as [|n IH]; intros fuel st D L;
    (destruct fuel as [|fuel]; [lia|]);
    destruct st as [o nl w t]; cbn [finish_query]; unfold_methods;
    cbn in *; destruct (extern (PQgetResult c) w) as [[r|] w1] eqn:E;
    cbn in *; try discriminate D.
  - exists []. eexists. split; [cbn; lia|]. split; [reflexivity|].
    repeat split. intros [|f'] Lf; [lia|].
    cbn [finish_query]. unfold_methods. cbn. now rewrite E.
  - destruct (extern (PQclear (Some r)) w1) as [[] w2] eqn:E2. cbn in *.
    match goal with
    | |- context [finish_query fuel c ?s] =>
        destruct (IH fuel s D ltac:(lia))
          as (rs & st' & Ln & Q & Tr & T & N & Fu)
    end.
    exists (r :: rs), st'. split; [cbn; lia|]. split; [exact Q|].
    cbn in Tr, T, N. repeat split; try assumption.
    + rewrite Tr, <- !app_assoc. reflexivity.
    + intros [|f'] Lf; [lia|].
      cbn [finish_query]. unfold_methods. cbn. rewrite E. cbn. rewrite E2.
      apply Fu. lia.
  - exists []. eexists. split; [cbn; lia|]. split; [reflexivity|].
    repeat split. intros [|f'] Lf; [lia|].
    cbn [finish_query]. unfold_methods. cbn. now rewrite E.
Qed.

End Cancel.

(** ** The rest of the class: cleanup, tracking, frames *)

Section MoreCleanup.
Context {W : Type} {X : Extern W}.

Lemma cancel_unless_complete_settled (st : State W) :
  tracked_settled st = true ->
  fst (cancel_unless_complete st) = Ok tt /\
  this (snd (cancel_unless_complete st)) = this st /\
  null (snd (cancel_unless_complete st)) = null st /\
  trace (snd (cancel_unless_complete st)) =
    trace st ++
    match pCurrentResult_ (this st) with
    | Some r => [Ev (DbResult_complete r) true]
    | None => []
    end.
Proof.
  destruct st as [[pc [a|] tr ci] nl w t]; unfold tracked_settled;
    unfold cancel_unless_complete, bind, get_this, call, ret;
    cbn -[cancel_query].
  - destruct (extern (DbResult_complete a) w) as [[|] w1] eqn:E;
      cbn -[cancel_query]; intro H; [|discriminate H]. now repeat split.
  - intros _. rewrite app_nil_r. now repeat split.
Qed.

Lemma cancel_unless_complete_no_drain (st : State W) :
  exists evs,
    trace (snd (cancel_unless_complete st)) = trace st ++ evs /\
    count is_drain_call evs = 0%nat.
Proof.
  destruct st as [[pc [a|] tr ci] nl w t];
    unfold cancel_unless_complete, cancel_query; unfold_methods; cbn.
  - destruct pc as [h|]; crunch;
      eexists; (split; [rewrite <- ?app_assoc; reflexivity | reflexivity]).
  - exists []. now rewrite app_nil_r.
Qed.

(** X5: when no result is tracked, or the tracked result says that it is
    complete, [cleanup_query] cannot raise, whatever the state of the
    connection: it checks nothing and cancels nothing.  Its calls are the
    question to the result, if there is one, and the calls of the drain;
    when the connection has at most [n] results left it returns for every
    bound above [n], and the object is unchanged. *)
Theorem cleanup_query_settled (st : State W) :
  tracked_settled st = true ->
  (forall fuel e, fst (cleanup_query fuel st) <> Throw e) /\
  (forall n fuel,
     drains n (pConn_ (this st))
            (world (snd (cancel_unless_complete st))) = true ->
     (n < fuel)%nat ->
     exists evs st',
       cleanup_query fuel st = (Ok tt, st') /\
       trace st' =
         trace st ++
         match pCurrentResult_ (this st) with
         | Some r => [Ev (DbResult_complete r) true]
         | None => []
         end ++ evs /\
       forallb is_drain_call evs = true /\
       this st' = this st /\ null st' = null st).
Proof.
  intro Hs.
  destruct (cancel_unless_complete_settled st Hs) as (R & T & N & Tr).
  destruct (cancel_unless_complete st) as [rc st1] eqn:C.
  cbn [fst snd] in *. subst rc. split.
  - intros fuel e. rewrite cleanup_query_split, C.
    pose proof (finish_query_frame fuel (pConn_ (this st1)) st1) as F.
    cbv zeta in F. destruct F as (_ & _ & [F | F] & _); rewrite F;
      discriminate.
  - intros n fuel D L. rewrite cleanup_query_split, C, T.
    pose proof (finish_query_enough n fuel _ st1 D L) as Q.
    pose proof (finish_query_frame fuel (pConn_ (this st)) st1) as F.
    cbv zeta in F. destruct F as (T2 & N2 & _ & evs & Tr2 & Dr).
    destruct (finish_query fuel (pConn_ (this st)) st1) as [r2 st'].
    cbn [fst snd] in *. subst r2. exists evs, st'.
    split; [reflexivity|]. split.
    + rewrite Tr2, Tr. symmetry. apply app_assoc.
    + split; [exact Dr|]. split; congruence.
Qed.

(** X6: when [cleanup_query] raises, the error is the one of its cancel
    step, and nothing has been drained: no [PQgetResult] and no [PQclear]
    was called.  This happens only with a tracked result that is not
    complete, and the object is left unchanged. *)
Theorem cleanup_query_raises_undrained (fuel : nat) (st st' : State W)
        (e : exception) :
  cleanup_query fuel st = (Throw e, st') ->
  cancel_unless_complete st = (Throw e, st') /\
  tracked_settled st = false /\
  this st' = this st /\
  exists evs,
    trace st' = trace st ++ evs /\ count is_drain_call evs = 0%nat.
Proof.
  intro H. rewrite cleanup_query_split in H.
  pose proof (cancel_unless_complete_frame st) as F. cbv zeta in F.
  destruct F as (T & _ & _).
  destruct (cancel_unless_complete_no_drain st) as (evs & Tr & Dr).
  assert (Hs : tracked_settled st = true ->
               fst (cancel_unless_complete st) = Ok tt)
    by (intro S0; apply (cancel_unless_complete_settled st S0)).
  destruct (cancel_unless_complete st) as [[u|e0|] st1]; cbn [fst snd] in *.
  - pose proof (finish_query_frame fuel (pConn_ (this st1)) st1) as G.
    cbv zeta in G. destruct G as (_ & _ & [G | G] & _);
      rewrite H in G; discriminate G.
  - injection H as -> ->. split; [reflexivity|]. split.
    + destruct (tracked_settled st); [|reflexivity].
      specialize (Hs eq_refl). discriminate Hs.
    + split; [exact T|]. now exists evs.
  - discriminate H.
Qed.

(** X7: after a [set_current_result(p)] that returned, the object answers
    [is_current_result(p)] with true and every other pointer with false,
    and [has_query()] tells whether [p] is not null.  Both questions call
    nothing and change nothing. *)
Theorem set_then_ask (fuel : nat) (p : DbResult_p) (st st1 : State W) :
  set_current_result fuel p st = (Ok tt, st1) ->
  is_current_result p st1 = (Ok true, st1) /\
  (forall q, q <> p -> is_current_result q st1 = (Ok false, st1)) /\
  has_query st1 =
    (Ok (match p with Some _ => true | None => false end), st1).
Proof.
  intro H. apply set_current_result_tracks in H.
  unfold is_current_result, has_query, bind, get_this, ret. rewrite H.
  split; [now rewrite ptr_eqb_refl|]. split.
  - intros q Hq. assert (E : ptr_eqb p q = false)
      by (apply ptr_eqb_neq; congruence).
    now rewrite E.
  - now destruct p.
Qed.

End MoreCleanup.

(** ** What the methods leave alone *)

Section Frames.
Context {W : Type} {X : Extern W}.

Lemma Keeps_ret A (a : A) : Keeps_object (ret (W:=W) a).
Proof. intro st. reflexivity. Qed.

Lemma Keeps_stop A (msg : string) : Keeps_object (stop (W:=W) (A:=A) msg).
Proof. intro st. reflexivity. Qed.

Lemma Keeps_out_of_fuel A : Keeps_object (out_of_fuel (W:=W) (A:=A)).
Proof. intro st. reflexivity. Qed.

Lemma Keeps_get_this : Keeps_object (get_this (W:=W)).
Proof. intro st. reflexivity. Qed.

Lemma Keeps_get_world : Keeps_object (get_world (W:=W)).
Proof. intro st. reflexivity. Qed.

Lemma Keeps_get_null : Keeps_object (get_null (W:=W)).
Proof. intro st. reflexivity. Qed.

Lemma Keeps_put_null (v : option SEXP) : Keeps_object (put_null (W:=W) v).
Proof. intro st. reflexivity. Qed.

Lemma Keeps_call R (c : Call R) : Keeps_object (call c).
Proof. intro st. unfold call. now destruct (extern c (world st)). Qed.

Lemma Keeps_bind A B (m : M W A) (f : A -> M W B) :
  Keeps_object m -> (forall a, Keeps_object (f a)) -> Keeps_object (bind m f).
Proof.
  intros Hm Hf st. specialize (Hm st). unfold bind.
  destruct (m st) as [[a|e|] st1]; cbn [fst snd] in *; try exact Hm.
  now rewrite (Hf a st1).
Qed.

End Frames.

Create HintDb keeps.
#[export] Hint Resolve Keeps_ret Keeps_stop Keeps_out_of_fuel Keeps_get_this
  Keeps_get_world Keeps_get_null Keeps_put_null Keeps_call : keeps.

Ltac keeps :=
  repeat first
    [ progress auto with keeps
    | apply Keeps_bind; [|intro]
    | match goal with
      | |- Keeps_object (if ?b then _ else _) => destruct b
      | |- Keeps_object (match ?x with _ => _ end) => destruct x
      end ].

Section MethodFrames.
Context {W : Type} {X : Extern W} {I : SessionInfo W}.
Context {Cell : Type}.
Variable encode_row_in_buffer : List Cell -> Z -> string -> string.

Lemma Keeps_conn_stop A msg : Keeps_object (conn_stop (W:=W) (A:=A) msg).
Proof. unfold conn_stop, conn_stop', conn. keeps. Qed.

Lemma Keeps_check_connection : Keeps_object (check_connection (W:=W)).
Proof. unfold check_connection. pose proof Keeps_conn_stop. keeps. Qed.

Lemma Keeps_cancel_query : Keeps_object (cancel_query (W:=W)).
Proof.
  unfold cancel_query, warning. pose proof Keeps_check_connection. keeps.
Qed.

Lemma Keeps_finish_query fuel c : Keeps_object (finish_query (W:=W) fuel c).
Proof. induction fuel as [|fuel IH]; cbn [finish_query]; keeps. Qed.

Lemma Keeps_cleanup_query fuel : Keeps_object (cleanup_query (W:=W) fuel).
Proof.
  unfold cleanup_query.
  pose proof Keeps_cancel_query. pose proof Keeps_finish_query. keeps.
Qed.

Lemma Keeps_copy_rows df i k :
  Keeps_object (copy_rows (W:=W) encode_row_in_buffer df i k).
Proof.
  revert i. induction k as [|k IH]; intro i; cbn [copy_rows];
    pose proof Keeps_conn_stop; keeps.
Qed.

Lemma Keeps_copy_data sql df :
  Keeps_object (copy_data (W:=W) encode_row_in_buffer sql df).
Proof.
  unfold copy_data. pose proof Keeps_conn_stop. pose proof Keeps_copy_rows.
  keeps.
Qed.

Lemma Keeps_get_null_string : Keeps_object (get_null_string (W:=W)).
Proof. unfold get_null_string. keeps. Qed.

Lemma Keeps_quote_string x : Keeps_object (quote_string (W:=W) x).
Proof.
  unfold quote_string.
  pose proof Keeps_check_connection. pose proof Keeps_get_null_string. keeps.
Qed.

Lemma Keeps_quote_identifier x : Keeps_object (quote_identifier (W:=W) x).
Proof. unfold quote_identifier. pose proof Keeps_check_connection. keeps. Qed.

Lemma Keeps_info : Keeps_object (info (W:=W)).
Proof. unfold info. pose proof Keeps_check_connection. keeps. Qed.

Lemma bind_get_this A (f : DbConnection -> M W A) (st : State W) :
  bind get_this f st = f (this st) st.
Proof. reflexivity. Qed.

Lemma bind_assign_this (m : M W unit) (p : DbResult_p) (st : State W) :
  Keeps_object m ->
  same_session (this st)
    (this (snd (bind m (fun _ => assign_pCurrentResult_ p) st))).
Proof.
  intro K. specialize (K st). unfold bind.
  destruct (m st) as [[u|e|] st1]; cbn [fst snd] in *;
    try (rewrite K; now repeat split).
  unfold assign_pCurrentResult_, bind, get_this, put_this. cbn.
  rewrite K. now repeat split.
Qed.

(** X8: the native handle and the two flags of the object are out of
    reach of the query methods.  [check_connection], [cancel_query],
    [finish_query], [cleanup_query], [copy_data], [quote_string],
    [quote_identifier] and [info] leave every field as it was, in every
    outcome; [set_current_result] and [reset_current_result] change at
    most the tracked result.  [set_transacting(b)] changes the
    transacting flag only, calls nothing, and [is_transacting()] then
    answers [b]. *)
Theorem session_and_flags_kept (fuel : nat) (p : DbResult_p) (sql : string)
        (df : List Cell) (x : String) (st : State W) :
  this (snd (check_connection st)) = this st /\
  this (snd (cancel_query st)) = this st /\
  this (snd (finish_query fuel (pConn_ (this st)) st)) = this st /\
  this (snd (cleanup_query fuel st)) = this st /\
  this (snd (copy_data encode_row_in_buffer sql df st)) = this st /\
  this (snd (quote_string x st)) = this st /\
  this (snd (quote_identifier x st)) = this st /\
  this (snd (info st)) = this st /\
  same_session (this st) (this (snd (set_current_result fuel p st))) /\
  same_session (this st) (this (snd (reset_current_result fuel p st))) /\
  (forall b,
     let st' := snd (set_transacting b st) in
     fst (set_transacting b st) = Ok tt /\
     is_transacting st' = (Ok b, st') /\
     pConn_ (this st') = pConn_ (this st) /\
     pCurrentResult_ (this st') = pCurrentResult_ (this st) /\
     check_interrupts_ (this st') = check_interrupts_ (this st) /\
     null st' = null st /\ world st' = world st /\ trace st' = trace st).
Proof.
  split; [apply Keeps_check_connection|].
  split; [apply Keeps_cancel_query|].
  split; [apply Keeps_finish_query|].
  split; [apply Keeps_cleanup_query|].
  split; [apply Keeps_copy_data|].
  split; [apply Keeps_quote_string|].
  split; [apply Keeps_quote_identifier|].
  split; [apply Keeps_info|].
  split; [|split].
  - unfold set_current_result. rewrite bind_get_this.
    destruct (ptr_eqb p (pCurrentResult_ (this st))); [now repeat split|].
    apply bind_assign_this.
    pose proof Keeps_cleanup_query. unfold warning. keeps.
  - unfold reset_current_result. rewrite bind_get_this.
    destruct (negb (ptr_eqb p (pCurrentResult_ (this st))));
      [now repeat split|].
    apply bind_assign_this. apply Keeps_cleanup_query.
  - intro b. now repeat split.
Qed.

Lemma info_after_check (st : State W) :
  info st =
  match check_connection st with
  | (Ok _, st0) =>
      (Ok (mkInfoList
             (string_or_empty (PQdb (pConn_ (this st0)) (world st0)))
             (string_or_empty (PQhost (pConn_ (this st0)) (world st0)))
             (string_or_empty (PQport (pConn_ (this st0)) (world st0)))
             (string_or_empty (PQuser (pConn_ (this st0)) (world st0)))
             (PQprotocolVersion (pConn_ (this st0)) (world st0))
             (PQserverVersion (pConn_ (this st0)) (world st0))
             (PQbackendPID (pConn_ (this st0)) (world st0))), st0)
  | (Throw e, st0) => (Throw e, st0)
  | (OutOfFuel, st0) => (OutOfFuel, st0)
  end.
Proof.
  unfold info, bind. destruct (check_connection st) as [[u|e|] st0];
    reflexivity.
Qed.

Lemma disconnect_nulls (st : State W) :
  pConn_ (this (snd (disconnect st))) = NULL.
Proof.
  destruct st as [[pc cur tr ci] nl w t]. unfold_methods. cbn. ask.
  reflexivity.
Qed.

(** X9: after [disconnect()] the object holds no handle: [conn()] answers
    null, and [check_connection], [cancel_query], [quote_string],
    [quote_identifier] and [info] all raise "Disconnected" without a
    single call and without any change of state. *)
Theorem disconnected_methods_raise (x : String) (st : State W) :
  let st1 := snd (disconnect st) in
  conn st1 = (Ok NULL, st1) /\
  check_connection st1 = (Throw (ConnectionError "Disconnected"), st1) /\
  cancel_query st1 = (Throw (ConnectionError "Disconnected"), st1) /\
  quote_string x st1 = (Throw (ConnectionError "Disconnected"), st1) /\
  quote_identifier x st1 = (Throw (ConnectionError "Disconnected"), st1) /\
  info st1 = (Throw (ConnectionError "Disconnected"), st1).
Proof.
  intro st1. pose proof (disconnect_nulls st) as Hn. fold st1 in Hn.
  pose proof (check_connection_frame st1) as F. cbv zeta in F.
  destruct F as (_ & _ & _ & D & _). destruct (D Hn) as [R S1].
  assert (C : check_connection st1 =
              (Throw (ConnectionError "Disconnected"), st1)).
  { destruct (check_connection st1) as [r s]. cbn [fst snd] in *.
    now subst. }
  split; [unfold conn, bind, get_this, ret; now rewrite Hn|].
  split; [exact C|].
  split; [now rewrite cancel_query_after_check, C|].
  split; [now rewrite quote_string_after_check, C|].
  split; [now rewrite quote_identifier_after_check, C|].
  now rewrite info_after_check, C.
Qed.

(** X13: [info()] fails exactly as the connection check fails.  After a
    passed check it returns the seven fields of the session as the
    accessors give them, an absent string as the empty string, and leaves
    the state as the check left it. *)
Theorem info_run (st : State W) :
  let rc := fst (check_connection st) in
  let st0 := snd (check_connection st) in
  let c := pConn_ (this st) in
  (forall e, rc = Throw e -> info st = (Throw e, st0)) /\
  (rc = Ok tt ->
   exists l,
     info st = (Ok l, st0) /\
     dbname l = string_or_empty (PQdb c (world st0)) /\
     host l = string_or_empty (PQhost c (world st0)) /\
     port l = string_or_empty (PQport c (world st0)) /\
     user l = string_or_empty (PQuser c (world st0)) /\
     protocol_version l = PQprotocolVersion c (world st0) /\
     server_version l = PQserverVersion c (world st0) /\
     pid l = PQbackendPID c (world st0) /\
     this st0 = this st).
Proof.
  intros rc st0 c. subst rc st0 c.
  pose proof (Keeps_check_connection st) as K.
  rewrite info_after_check.
  destruct (check_connection st) as [rc st0]. cbn [fst snd] in *. split.
  - now intros e ->.
  - intros ->. eexists. split; [reflexivity|]. cbn. rewrite K.
    now repeat split.
Qed.

End MethodFrames.

(** ** More on the bulk copy *)

Lemma copy_calls_quiet (evs : list Event) :
  forallb is_copy_call evs = true ->
  count is_PQstatus evs = 0%nat /\ count is_PQreset evs = 0%nat /\
  count is_cancel_call evs = 0%nat /\ warnings evs = [].
Proof.
  induction evs as [|[R c r] evs IH]; [now repeat split|].
  cbn [forallb]. intro H. apply andb_prop in H. destruct H as [H1 H2].
  specialize (IH H2). destruct IH as (I1 & I2 & I3 & I4).
  unfold count in *.
  destruct c; cbn in H1; try discriminate H1; cbn; now repeat split.
Qed.

Section MoreCopy.
Context {W : Type} {X : Extern W}.
Context {Cell : Type}.
Variable encode_row_in_buffer : List Cell -> Z -> string -> string.

Lemma rows_sent_copy_calls c df i k :
  forallb is_copy_call (rows_sent encode_row_in_buffer c df i k) = true.
Proof.
  revert i. induction k as [|k IH]; intro i; [reflexivity|].
  cbn [rows_sent forallb]. now rewrite IH.
Qed.

Lemma rows_sent_count (p : Event -> bool) c df i k :
  (forall j a, p (put_row encode_row_in_buffer c df j a) = false) ->
  count p (rows_sent encode_row_in_buffer c df i k) = 0%nat.
Proof.
  intro H. revert i. induction k as [|k IH]; intro i; [reflexivity|].
  cbn [rows_sent]. unfold count in *. cbn [filter]. rewrite H. apply IH.
Qed.

(** X10: [copy_data] does not check the connection.  In every run, on
    every table, its calls are those of the copy itself: it never asks
    [PQstatus], never resets the session, never cancels and never warns.
    On a table with a column its first call is [PQexec] of the statement
    on whatever handle the object holds, a null one included. *)
Theorem copy_data_unchecked (sql : string) (df : List Cell) (st : State W) :
  exists evs,
    trace (snd (copy_data encode_row_in_buffer sql df st)) =
      trace st ++ evs /\
    forallb is_copy_call evs = true /\
    count is_PQstatus evs = 0%nat /\ count is_PQreset evs = 0%nat /\
    count is_cancel_call evs = 0%nat /\ warnings evs = [] /\
    (df <> [] ->
     exists res rest,
       evs = Ev (PQexec (pConn_ (this st)) sql) res :: rest).
Proof.
  assert (G : exists evs,
             trace (snd (copy_data encode_row_in_buffer sql df st)) =
               trace st ++ evs /\
             forallb is_copy_call evs = true /\
             (df <> [] ->
              exists res rest,
                evs = Ev (PQexec (pConn_ (this st)) sql) res :: rest)).
  { destruct df as [|col rest].
    - exists []. cbn. rewrite app_nil_r. repeat split. now intros [].
    - assert (Hdf : col :: rest <> []) by discriminate.
      destruct (copy_data_run encode_row_in_buffer sql _ st Hdf)
        as (_ & _ & res & s & evs & _ & _ & Tr & Sh).
      eexists. split; [exact Tr|]. split; [|intros _; now do 2 eexists].
      cbn [forallb is_copy_call andb].
      destruct Sh as [(_ & e & -> & _) | (_ & R)]; [reflexivity|].
      destruct R; rewrite forallb_app, rows_sent_copy_calls; reflexivity. }
  destruct G as (evs & Tr & F & Hd). exists evs.
  destruct (copy_calls_quiet evs F) as (Q1 & Q2 & Q3 & Q4).
  now repeat split.
Qed.

(** X11: [copy_data] keeps no result object.  In every run, whether it
    returns or raises, it has cleared as many results as [PQexec] and
    [PQgetResult] have handed to it. *)
Theorem copy_data_clears_results (sql : string) (df : List Cell)
        (st : State W) :
  exists evs,
    trace (snd (copy_data encode_row_in_buffer sql df st)) =
      trace st ++ evs /\
    count is_PQclear evs = count is_result_source evs.
Proof.
  destruct df as [|col rest].
  - exists []. cbn. now rewrite app_nil_r.
  - assert (Hdf : col :: rest <> []) by discriminate.
    destruct (copy_data_run encode_row_in_buffer sql _ st Hdf)
      as (_ & _ & res & s & evs & _ & _ & Tr & Sh).
    eexists. split; [exact Tr|].
    change (S (count is_PQclear evs) = S (count is_result_source evs)).
    f_equal.
    destruct Sh as [(_ & e & -> & _) | (_ & R)]; [reflexivity|].
    destruct R; rewrite !count_app, !rows_sent_count; reflexivity.
Qed.


End MoreCopy.

(** ** More concrete runs on the simulated backend *)

(** Two connection options. *)
Lemma DbConnection_new_parameters_witness :
  exists (p : PGconn_p) (evs : list Event),
    trace (snd (DbConnection_new ["host"; "dbname"]%string
                  ["localhost"; "test"]%string true
                  (Sim.disconnected None Sim.healthy))) =
      Ev (PQconnectdbParams
            [Some "host"; Some "dbname"; None]%string
            [Some "localhost"; Some "test"; None]%string false) p :: evs /\
    pConn_ (this (snd (DbConnection_new ["host"; "dbname"]%string
                         ["localhost"; "test"]%string true
                         (Sim.disconnected None Sim.healthy)))) = p.
Proof.
  exact (DbConnection_new_parameters ["host"; "dbname"]%string
           ["localhost"; "test"]%string true
           (Sim.disconnected None Sim.healthy) eq_refl).
Defined.

(** A cancel request on a healthy session that refuses it, and one on a
    lost session. *)
Lemma cancel_query_run_witness :
  (let st := Sim.connected None Sim.cancel_refused in
   fst (check_connection st) = Ok tt /\
   this (snd (cancel_query st)) = this st /\
   null (snd (cancel_query st)) = null st /\
   ((fst (cancel_query st) =
       Throw (ConnectionError "Connection error detected via PQgetCancel()") /\
     trace (snd (cancel_query st)) =
       trace (snd (check_connection st)) ++
       [Ev (PQgetCancel (Some 1%nat)) NULL]) \/
    (exists (h : nat) (code : Z) (errbuf : string),
       fst (cancel_query st) = Ok tt /\
       trace (snd (cancel_query st)) =
         trace (snd (check_connection st)) ++
         [Ev (PQgetCancel (Some 1%nat)) (Some h);
          Ev (PQcancel (Some h) 256) (code, errbuf)] ++
         (if code =? 0 then [Ev (Rf_warning errbuf) tt] else []) ++
         [Ev (PQfreeCancel (Some h)) tt]))) /\
  (let st := Sim.connected None Sim.lost in
   fst (cancel_query st) =
     Throw (QueryError "Lost connection to database"
                       "server closed the connection") /\
   snd (cancel_query st) = snd (check_connection st)).
Proof.
  split.
  - intro st. destruct (cancel_query_run st) as (_ & H).
    split; [reflexivity|]. exact (H eq_refl).
  - intro st. destruct (cancel_query_run st) as (H & _).
    apply (H (QueryError "Lost connection to database"
                         "server closed the connection")).
    reflexivity.
Defined.

(** One result waits on the healthy session. *)
Lemma finish_query_drains_witness :
  exists (rs : list nat) (st' : State Sim.Backend),
    (List.length rs <= 1)%nat /\
    finish_query 2 (Some 1%nat) (Sim.connected None Sim.healthy) =
      (Ok tt, st') /\
    trace st' = [] ++ drain_events (Some 1%nat) rs /\
    this st' = this (Sim.connected None Sim.healthy) /\
    null st' = None /\
    (forall fuel', (1 < fuel')%nat ->
       finish_query fuel' (Some 1%nat) (Sim.connected None Sim.healthy) =
       (Ok tt, st')).
Proof.
  apply (finish_query_drains 1 2 (Some 1%nat)
           (Sim.connected None Sim.healthy)).
  - reflexivity.
  - lia.
Defined.

(** The tracked result is complete and the object is disconnected: the
    cleanup still returns. *)
Lemma cleanup_query_settled_witness :
  let st := Sim.disconnected (Some 1%nat) result_1_complete in
  tracked_settled st = true /\
  exists evs st',
    cleanup_query 2 st = (Ok tt, st') /\
    trace st' = [] ++ [Ev (DbResult_complete 1) true] ++ evs /\
    forallb is_drain_call evs = true /\
    this st' = this st /\ null st' = null st.
Proof.
  intro st.
  assert (Hs : tracked_settled st = true) by reflexivity.
  split; [exact Hs|].
  destruct (cleanup_query_settled st Hs) as (_ & H).
  apply (H 1%nat 2%nat).
  - reflexivity.
  - lia.
Defined.

(** The tracked result is not complete and the object is disconnected. *)
Lemma cleanup_query_raises_undrained_witness :
  let st := Sim.disconnected (Some 1%nat) Sim.healthy in
  let st' := snd (cleanup_query 3 st) in
  cleanup_query 3 st = (Throw (ConnectionError "Disconnected"), st') /\
  cancel_unless_complete st = (Throw (ConnectionError "Disconnected"), st') /\
  tracked_settled st = false /\
  this st' = this st /\
  exists evs,
    trace st' = trace st ++ evs /\ count is_drain_call evs = 0%nat.
Proof.
  intros st st'.
  assert (H : cleanup_query 3 st =
              (Throw (ConnectionError "Disconnected"), st'))
    by reflexivity.
  split; [exact H|].
  exact (cleanup_query_raises_undrained 3 st st' _ H).
Defined.

(** Result 2 is registered on a fresh object. *)
Lemma set_then_ask_witness :
  let st := Sim.connected None Sim.healthy in
  let st1 := snd (set_current_result 3 (Some 2%nat) st) in
  set_current_result 3 (Some 2%nat) st = (Ok tt, st1) /\
  is_current_result (Some 2%nat) st1 = (Ok true, st1) /\
  (forall q, q <> Some 2%nat -> is_current_result q st1 = (Ok false, st1)) /\
  has_query st1 = (Ok true, st1).
Proof.
  intros st st1.
  assert (H : set_current_result 3 (Some 2%nat) st = (Ok tt, st1))
    by reflexivity.
  split; [exact H|].
  exact (set_then_ask 3 (Some 2%nat) st st1 H).
Defined.

(** A copy on a disconnected object starts with [PQexec] on the null
    handle. *)
Lemma copy_data_unchecked_witness :
  let st := Sim.disconnected None Sim.healthy in
  exists evs res rest,
    trace (snd (copy_data Sim.encode "COPY t FROM STDIN" [[1; 2]] st)) =
      trace st ++ evs /\
    count is_PQstatus evs = 0%nat /\
    evs = Ev (PQexec None "COPY t FROM STDIN") res :: rest.
Proof.
  intro st.
  destruct (copy_data_unchecked Sim.encode "COPY t FROM STDIN" [[1; 2]] st)
    as (evs & Tr & _ & Q & _ & _ & _ & Hd).
  destruct (Hd ltac:(discriminate)) as (res & rest & E).
  exists evs, res, rest. now repeat split.
Defined.


(** The description of the healthy session, and of the lost one. *)
Lemma info_run_witness :
  (let st := Sim.connected None Sim.healthy in
   exists l,
     info st = (Ok l, snd (check_connection st)) /\
     dbname l = "test"%string /\ host l = ""%string /\
     port l = "5432"%string /\ user l = "alice"%string /\
     protocol_version l = 3 /\ server_version l = 90600 /\ pid l = 4242 /\
     this (snd (check_connection st)) = this st) /\
  (let st := Sim.connected None Sim.lost in
   info st =
     (Throw (QueryError "Lost connection to database"
                        "server closed the connection"),
      snd (check_connection st))).
Proof.
  split.
  - intro st. destruct (info_run st) as (_ & H). exact (H eq_refl).
  - intro st. destruct (info_run st) as (H & _). apply H. reflexivity.
Defined.

(** ** Clearing the tracked result in two ways *)

Section Clearing.
Context {W : Type} {X : Extern W}.

(** X14: while a result is tracked, [set_current_result(NULL)] is
    [reset_current_result] of that result: the same calls, the same
    outcome, the same state.  With nothing tracked the two differ:
    [set_current_result(NULL)] does nothing at all, whereas
    [reset_current_result(NULL)] still drains the connection, so that its
    first call is [PQgetResult]. *)
Theorem set_null_is_reset (fuel : nat) (st : State W) :
  (forall a, pCurrentResult_ (this st) = Some a ->
     set_current_result fuel NULL st =
     reset_current_result fuel (Some a) st) /\
  (pCurrentResult_ (this st) = NULL ->
   set_current_result fuel NULL st = (Ok tt, st) /\
   exists r rest,
     trace (snd (reset_current_result (S fuel) NULL st)) =
     trace st ++ Ev (PQgetResult (pConn_ (this st))) r :: rest).
Proof.
  split.
  - intros a Ha.
    unfold set_current_result, reset_current_result.
    rewrite !bind_get_this, Ha. cbn [ptr_eqb NULL negb].
    rewrite Nat.eqb_refl. cbn [negb].
    unfold bind, ret. destruct (cleanup_query fuel st) as [[u|e|] st1];
      reflexivity.
  - intro Hn. split.
    + unfold set_current_result. rewrite bind_get_this, Hn. reflexivity.
    + destruct st as [[pc cur tr ci] nl w t]. cbn in Hn. subst cur.
      unfold reset_current_result, cleanup_query. unfold_methods.
      cbn -[finish_query]. cbn [finish_query]. unfold_methods. cbn. ask.
      destruct (ptr_eqb a None) eqn:P; cbn.
      * do 2 eexists. reflexivity.
      * ask.
        match goal with
        | |- context [finish_query fuel pc ?s] =>
            destruct (Sound_finish_query fuel pc s) as (evs & Tr & _);
            destruct (finish_query fuel pc s) as [[u|e|] st1]
        end; cbn in *; rewrite Tr, <- !app_assoc; do 2 eexists;
          reflexivity.
Qed.

End Clearing.

(** Result 1 is tracked on the healthy session; and nothing is tracked. *)
Lemma set_null_is_reset_witness :
  (let st := Sim.connected (Some 1%nat) Sim.healthy in
   set_current_result 3 NULL st = reset_current_result 3 (Some 1%nat) st) /\
  (let st := Sim.connected None Sim.healthy in
   set_current_result 3 NULL st = (Ok tt, st) /\
   exists r rest,
     trace (snd (reset_current_result 4 NULL st)) =
     trace st ++ Ev (PQgetResult (Some 1%nat)) r :: rest).
Proof.
  split.
  - intro st. destruct (set_null_is_reset 3 st) as (H & _).
    apply (H 1%nat). reflexivity.
  - intro st. destruct (set_null_is_reset 3 st) as (_ & H).
    apply H. reflexivity.
Defined.
